(** * minifitna backend (backend/app.py): embedding and verification

    The Flask handlers of [app.py] are embedded as pure functions over an
    explicit database value.  The SQLite tables are lists of rows in the
    order of their row ids, each with its AUTOINCREMENT counter; the [day]
    column is TEXT and is compared bytewise as SQLite's BINARY collation
    does; REAL columns hold binary64 numbers other than NaN, which SQLite
    takes for NULL; and Python exceptions are the [Raise] outcomes of a
    small error monad.  Clock readings ([date.today()], [time.time()],
    [datetime('now')]) are inputs, and so are the parts that are not in the
    repository: Python's Unicode [str.strip] and [str.lower], the rounding
    of SQLite's [SUM], [hashlib] and PyJWT. *)

From Stdlib Require Import ZArith List String Ascii Bool Lia.
From Stdlib Require Import Sorted Permutation.
From Stdlib Require Import Floats.PrimFloat.
Import ListNotations.

Local Open Scope Z_scope.

(** ** Exceptions *)

Inductive exn : Type :=
| OverflowError      (* date value out of range *)
| TypeError          (* subscripting None *)
| AttributeError     (* row_to_dict on None *)
| IntegrityError     (* sqlite3: NOT NULL constraint failed *)
| OutOfFuel.         (* the model's loop bound was reached *)

Inductive result (A : Type) : Type :=
| Ok (a : A)
| Raise (e : exn).
Arguments Ok {A} a.
Arguments Raise {A} e.

Definition bind {A B : Type} (m : result A) (k : A -> result B) : result B :=
  match m with
  | Ok a => k a
  | Raise e => Raise e
  end.

Notation "x <- m ;; k" := (bind m (fun x => k))
  (at level 61, m at next level, right associativity).

Definition or_raise {A : Type} (o : option A) (e : exn) : result A :=
  match o with
  | Some a => Ok a
  | None => Raise e
  end.

(** ** Text helpers: stripping and lowercasing, [bytes.hex]

    Strings are byte strings (UTF-8).  [strip] and [lower] below work on
    ASCII only: blanks and capital letters outside ASCII are left as they
    are.  They are not Python's [str.strip] and [str.lower], which follow
    Unicode and are taken as given ([PyStr]), but they are what these do on
    ASCII text; [lower] is also how header names, which are ASCII, are
    compared. *)

Definition isspace (c : ascii) : bool :=
  let n := N_of_ascii c in
  ((n =? 32) || ((9 <=? n) && (n <=? 13)) || ((28 <=? n) && (n <=? 31)))%N.

Fixpoint lstrip (s : string) : string :=
  match s with
  | EmptyString => EmptyString
  | String c s' => if isspace c then lstrip s' else s
  end.

Fixpoint rstrip (s : string) : string :=
  match s with
  | EmptyString => EmptyString
  | String c s' =>
      match rstrip s' with
      | EmptyString => if isspace c then EmptyString else String c EmptyString
      | t => String c t
      end
  end.

Definition strip (s : string) : string := rstrip (lstrip s).

Definition lower_char (c : ascii) : ascii :=
  let n := N_of_ascii c in
  if ((65 <=? n) && (n <=? 90))%N then ascii_of_N (n + 32) else c.

Fixpoint lower (s : string) : string :=
  match s with
  | EmptyString => EmptyString
  | String c s' => String (lower_char c) (lower s')
  end.

Fixpoint is_ascii (s : string) : bool :=
  match s with
  | EmptyString => true
  | String c s' => (N_of_ascii c <? 128)%N && is_ascii s'
  end.

(** Python's [str.strip] and [str.lower], on text held as UTF-8.  They
    follow the Unicode tables (blanks such as U+00A0, case pairs such as
    É/é), which are not part of this development; on ASCII text they are
    [strip] and [lower]. *)
Class PyStr : Type := {
  str_strip : string -> string;
  str_lower : string -> string;
  str_strip_ascii : forall s, is_ascii s = true -> str_strip s = strip s;
  str_lower_ascii : forall s, is_ascii s = true -> str_lower s = lower s
}.

Definition hex_digit (n : N) : ascii :=
  if (n <? 10)%N then ascii_of_N (48 + n) else ascii_of_N (87 + n).

Fixpoint hex (s : string) : string :=
  match s with
  | EmptyString => EmptyString
  | String c s' =>
      let n := N_of_ascii c in
      String (hex_digit (n / 16)) (String (hex_digit (n mod 16)) (hex s'))
  end.

(** [x or default] on an optional string: None and the empty string are
    falsy. *)
Definition str_or (o : option string) (dflt : string) : string :=
  match o with
  | Some s => if String.eqb s "" then dflt else s
  | None => dflt
  end.

(** [if x:] on an optional string: the value when it is truthy. *)
Definition supplied (o : option string) : option string :=
  match o with
  | Some s => if String.eqb s "" then None else Some s
  | None => None
  end.

(** ** Calendar: [datetime.date]

    A date is a (year, month, day) triple of the proleptic Gregorian
    calendar, from 0001-01-01 ([date.min]) to 9999-12-31.  Python compares
    dates as such triples.  [d - timedelta(days=k)] is the date [k] days
    before [d] and raises OverflowError below [date.min]. *)

Record date : Type := mkDate { year : Z; month : Z; mday : Z }.

Definition is_leap (y : Z) : bool :=
  (y mod 4 =? 0) && (negb (y mod 100 =? 0) || (y mod 400 =? 0)).

Definition days_in_month (y m : Z) : Z :=
  if m =? 2 then (if is_leap y then 29 else 28)
  else if (m =? 4) || (m =? 6) || (m =? 9) || (m =? 11) then 30
  else 31.

Definition valid_date (d : date) : bool :=
  (1 <=? year d) && (year d <=? 9999) &&
  (1 <=? month d) && (month d <=? 12) &&
  (1 <=? mday d) && (mday d <=? days_in_month (year d) (month d)).

Definition date_compare (a b : date) : comparison :=
  match year a ?= year b with
  | Eq => match month a ?= month b with
          | Eq => mday a ?= mday b
          | c => c
          end
  | c => c
  end.

Definition date_leb (a b : date) : bool :=
  match date_compare a b with Gt => false | _ => true end.

Definition date_ltb (a b : date) : bool :=
  match date_compare a b with Lt => true | _ => false end.

(** [d - timedelta(days=1)]; None is OverflowError. *)
Definition prev_day (d : date) : option date :=
  if 1 <? mday d then Some (mkDate (year d) (month d) (mday d - 1))
  else if 1 <? month d then
    Some (mkDate (year d) (month d - 1) (days_in_month (year d) (month d - 1)))
  else if 1 <? year d then Some (mkDate (year d - 1) 12 31)
  else None.

(** [d - timedelta(days=k)]; None is OverflowError. *)
Fixpoint date_sub (d : date) (k : nat) : option date :=
  match k with
  | O => Some d
  | S k' =>
      match prev_day d with
      | Some d' => date_sub d' k'
      | None => None
      end
  end.

Definition digit (n : Z) : ascii := ascii_of_N (Z.to_N (48 + n)).

(** ["%02d"] and ["%04d"] on the fields of a date. *)
Definition pad2 (n : Z) (rest : string) : string :=
  String (digit (n / 10)) (String (digit (n mod 10)) rest).

Definition pad4 (n : Z) (rest : string) : string :=
  String (digit (n / 1000))
    (String (digit (n / 100 mod 10))
       (String (digit (n / 10 mod 10)) (String (digit (n mod 10)) rest))).

(** [date.isoformat()]: YYYY-MM-DD. *)
Definition isoformat (d : date) : string :=
  pad4 (year d) (String "-" (pad2 (month d) (String "-" (pad2 (mday d) "")))).

(** The code of a date: on valid dates it orders as the dates do. *)
Definition date_code (d : date) : Z := 372 * year d + 31 * month d + mday d.

(** A bound on the number of days from [date.min] to [d], used as the fuel of
    the backward scan: every step to the previous day lowers it. *)
Definition scan_bound (d : date) : nat := Z.to_nat (date_code d).

(** ** Clock readings of one request *)

Record env : Type := mkEnv {
  today : date;        (* date.today() *)
  unix_time : Z;       (* int(time.time()) *)
  sql_now : string     (* datetime('now') *)
}.

(** ** Tables *)

(** A row of [users].  The schema lets the four goal columns be NULL; the
    rows here hold values, as registration and every PUT /api/me with
    numbers and texts leave them. *)
Record user : Type := mkUser {
  u_id : Z;
  u_username : string;
  u_password_hash : string;
  u_created_at : string;
  u_target_weight : float;
  u_daily_run_km : float;
  u_weigh_time : string;
  u_run_time : string
}.

(** A row of [weights] or [runs]: both tables have the columns id, user_id,
    day, created_at; [val] holds the measurement columns. *)
Record row (V : Type) : Type := mkRow {
  id : Z;
  user_id : Z;
  day : string;
  val : V;
  created_at : string
}.
Arguments mkRow {V} _ _ _ _ _.
Arguments id {V} _.
Arguments user_id {V} _.
Arguments day {V} _.
Arguments val {V} _.
Arguments created_at {V} _.

Record run_val : Type := mkRun { distance_km : float; duration_min : float }.

Abbreviation weight_row := (row float).
Abbreviation run_row := (row run_val).

Definition weight_kg (r : weight_row) : float := val r.

(** The three tables, and for each the counter that AUTOINCREMENT keeps in
    [sqlite_sequence]: the largest row id the table ever handed out. *)
Record database : Type := mkDatabase {
  users : list user;
  weights : list weight_row;
  runs : list run_row;
  seq_users : Z;
  seq_weights : Z;
  seq_runs : Z
}.

(** The tables with their counters at the largest ids in use. *)
Definition mkDb (us : list user) (ws : list weight_row) (rs : list run_row)
    : database :=
  mkDatabase us ws rs
    (fold_right Z.max 0 (map u_id us))
    (fold_right Z.max 0 (map id ws))
    (fold_right Z.max 0 (map id rs)).

Definition empty_db : database := mkDb [] [] [].

(** ** SQL fragments *)

(** INTEGER PRIMARY KEY AUTOINCREMENT: the row id an INSERT is given is one
    more than the larger of the counter and the ids in the table. *)
Definition new_rowid (seq : Z) (ids : list Z) : Z :=
  1 + fold_right Z.max seq ids.

Section Rows.
Context {V : Type}.

(** [WHERE user_id=? AND day=?] *)
Definition on_day (uid : Z) (d : string) (r : row V) : bool :=
  (user_id r =? uid) && String.eqb (day r) d.

(** [SELECT 1 FROM t WHERE user_id=? AND day=? LIMIT 1], as a boolean. *)
Definition has_entry (tbl : list (row V)) (uid : Z) (d : string) : bool :=
  existsb (on_day uid d) tbl.

(** A WHERE clause built as a conjunction of conditions. *)
Definition where_all (conds : list (row V -> bool)) (r : row V) : bool :=
  forallb (fun c => c r) conds.

(** [ORDER BY day DESC], by insertion. *)
Fixpoint insert_desc (r : row V) (l : list (row V)) : list (row V) :=
  match l with
  | [] => [r]
  | x :: l' =>
      if String.leb (day x) (day r) then r :: l else x :: insert_desc r l'
  end.

Definition order_by_day_desc (l : list (row V)) : list (row V) :=
  fold_right insert_desc [] l.

(** [SELECT * FROM t WHERE user_id=? [AND day >= ?] [AND day <= ?]
    ORDER BY day DESC], the statement [weights_list] and [runs_list]
    assemble. *)
Definition select_range (tbl : list (row V)) (uid : Z)
    (start end_ : option string) : list (row V) :=
  let sql := [fun r : row V => user_id r =? uid] in
  let sql :=
    match supplied start with
    | Some s => sql ++ [fun r : row V => String.leb s (day r)]
    | None => sql
    end in
  let sql :=
    match supplied end_ with
    | Some s => sql ++ [fun r : row V => String.leb (day r) s]
    | None => sql
    end in
  order_by_day_desc (filter (where_all sql) tbl).

(** [INSERT INTO t (user_id, day, ...) VALUES (?, ?, ...)
    ON CONFLICT(user_id, day) DO UPDATE SET ... = excluded....], the rows
    after it.  [rowid] is the id the INSERT was given; on a conflict it is
    not used for a row. *)
Definition upsert (tbl : list (row V)) (rowid : Z) (uid : Z) (d : string)
    (v : V) (now : string) : list (row V) :=
  if has_entry tbl uid d
  then map (fun r => if on_day uid d r
                     then mkRow (id r) (user_id r) (day r) v (created_at r)
                     else r) tbl
  else tbl ++ [mkRow rowid uid d v now].

(** The rows in the order of the index on (user_id, day) that the UNIQUE
    constraint creates: ascending by day. *)
Definition index_order (l : list (row V)) : list (row V) :=
  rev (order_by_day_desc l).

(** The loop of [summary.streak]. *)
Fixpoint streak_loop (tbl : list (row V)) (uid : Z) (fuel : nat)
    (d : date) (s : nat) : result nat :=
  match fuel with
  | O => Raise OutOfFuel
  | S fuel' =>
      if has_entry tbl uid (isoformat d)
      then
        match prev_day d with
        | Some d' => streak_loop tbl uid fuel' d' (S s)
        | None => Raise OverflowError
        end
      else Ok s
  end.

Definition streak_of (tbl : list (row V)) (uid : Z) (d : date)
    : result nat :=
  streak_loop tbl uid (scan_bound d) d 0%nat.
End Rows.

(** Whether the binary64 sum [x + y] is exact: the rounding error that
    Knuth's TwoSum computes is zero. *)
Definition exact_add (x y : float) : bool :=
  let s := PrimFloat.add x y in
  let bb := PrimFloat.sub s x in
  let err := PrimFloat.add (PrimFloat.sub x (PrimFloat.sub s bb))
                           (PrimFloat.sub y bb) in
  PrimFloat.eqb err 0%float.

(** Whether adding the values one by one, from [acc], never rounds. *)
Fixpoint exact_sums (l : list float) (acc : float) : bool :=
  match l with
  | [] => true
  | x :: l' => exact_add acc x && exact_sums l' (PrimFloat.add acc x)
  end.

(** SQLite's [SUM] over REAL values, given in the order they are scanned.
    How it rounds is SQLite's affair (plain accumulation, or compensated
    summation in later versions); when no partial sum rounds, both give the
    plain sum. *)
Class SqlReal : Type := {
  real_sum : list float -> float;
  real_sum_exact :
    forall l, exact_sums l 0%float = true ->
              real_sum l = fold_left PrimFloat.add l 0%float
}.

(** A REAL that SQLite hands back as a result: a NaN comes out as NULL. *)
Definition sql_real (x : float) : option float :=
  if PrimFloat.is_nan x then None else Some x.

(** [SUM(x)]: NULL over no rows. *)
Definition sql_sum {Sq : SqlReal} (l : list float) : option float :=
  match l with
  | [] => None
  | _ => sql_real (real_sum l)
  end.

(** [float(x or 0.0)] on a nullable REAL. *)
Definition or_zero (o : option float) : float :=
  match o with
  | None => 0%float
  | Some x => if PrimFloat.eqb x 0%float then 0%float else x
  end.

(** ** External primitives

    [hashlib.pbkdf2_hmac], [jwt.encode] and the process environment are
    not part of the repository; the handlers are written over any
    implementation of them. *)

Record jwt_payload : Type := mkPayload {
  sub : Z;
  username : string;
  iat : Z;
  exp : Z
}.

Class Platform : Type := {
  (* hashlib.pbkdf2_hmac(hash_name, password, salt, iterations) *)
  pbkdf2_hmac : string -> string -> string -> Z -> string;
  (* jwt.encode(payload, key, algorithm) *)
  jwt_encode : jwt_payload -> string -> string -> string;
  (* os.environ.get("APP_SECRET") *)
  APP_SECRET : option string
}.

(** ** Responses *)

Inductive auth_json : Type :=
| ErrorJson (error : string)
| TokenJson (token : string) (name : string).

Record profile_json : Type := mkProfile {
  p_id : Z;
  p_username : string;
  p_target_weight : float;
  p_daily_run_km : float;
  p_weigh_time : string;
  p_run_time : string
}.

(** A number of a JSON body: a binary64 value other than NaN.  (JSON has no
    NaN; the one Python's parser lets through would be stored as NULL, which
    the goal fields of [user] do not hold.) *)
Record number : Type := mkNumber {
  num : float;
  num_ok : PrimFloat.is_nan num = false
}.

(** The JSON body of PUT /api/me: a key that is absent is None. *)
Record profile_input : Type := mkInput {
  in_target_weight : option number;
  in_daily_run_km : option number;
  in_weigh_time : option string;
  in_run_time : option string
}.

Record summary_json : Type := mkSummary {
  latest_weight : option float;
  latest_weight_day : option string;
  delta_to_target : option float;
  daily_run_goal_km : float;
  run_7d_km : float;
  weigh_streak : nat;
  run_streak : nat
}.

Inductive table_name : Type := Weights | Runs.

(** ** Security helpers *)

Section Handlers.
Context {P : Platform} {T : PyStr} {Sq : SqlReal}.

Definition SECRET_KEY : string :=
  match APP_SECRET with
  | Some s => s
  | None => "change_this_to_a_long_random_secret"
  end.

Definition JWT_ALG : string := "HS256".

Definition _hash_password (password : string) : string :=
  let salt := "static_salt_change_me"%string in
  let dk := pbkdf2_hmac "sha256" password salt 200000 in
  hex dk.

(** [hmac.compare_digest] decides equality of the two strings. *)
Definition _verify_password (password password_hash : string) : bool :=
  String.eqb (_hash_password password) password_hash.

Definition create_token (e : env) (uid : Z) (name : string) : string :=
  let payload :=
    mkPayload uid name (unix_time e) (unix_time e + 60 * 60 * 24 * 14) in
  jwt_encode payload SECRET_KEY JWT_ALG.

Definition today_str (e : env) : string := isoformat (today e).

(** ** Auth *)

(** [SELECT * FROM users WHERE username = ?] then [fetchone()]. *)
Definition user_by_name (db : database) (name : string) : option user :=
  find (fun u => String.eqb (u_username u) name) (users db).

(** [SELECT ... FROM users WHERE id = ?] then [fetchone()]. *)
Definition user_by_id (db : database) (uid : Z) : option user :=
  find (fun u => u_id u =? uid) (users db).

(** [INSERT INTO users (username, password_hash) VALUES (?, ?)]: None is
    sqlite3.IntegrityError (username is UNIQUE); the other columns take
    the defaults of the schema. *)
Definition insert_user (db : database) (e : env) (name pw_hash : string)
    : option database :=
  match user_by_name db name with
  | Some _ => None
  | None =>
      let rowid := new_rowid (seq_users db) (map u_id (users db)) in
      let u := mkUser rowid name pw_hash
                 (sql_now e) 80%float 10%float "08:00" "18:00" in
      Some (mkDatabase (users db ++ [u]) (weights db) (runs db)
              rowid (seq_weights db) (seq_runs db))
  end.

(** POST /api/register: the new database, and the JSON body with its
    status. *)
Definition register (db : database) (e : env)
    (username_field password_field : option string)
    : database * result (auth_json * Z) :=
  let username := str_lower (str_strip (str_or username_field "")) in
  let password := str_or password_field "" in
  if String.eqb username "" || String.eqb password ""
  then (db, Ok (ErrorJson "username_password_required", 400))
  else
    match insert_user db e username (_hash_password password) with
    | None => (db, Ok (ErrorJson "username_taken", 409))
    | Some db' =>
        (db',
         row_ <- or_raise (user_by_name db' username) TypeError ;;
         let user_id := u_id row_ in
         let token := create_token e user_id username in
         Ok (TokenJson token username, 200))
    end.

(** POST /api/login. *)
Definition login (db : database) (e : env)
    (username_field password_field : option string) : auth_json * Z :=
  let username := str_lower (str_strip (str_or username_field "")) in
  let password := str_or password_field "" in
  if String.eqb username "" || String.eqb password ""
  then (ErrorJson "username_password_required", 400)
  else
    match user_by_name db username with
    | None => (ErrorJson "invalid_credentials", 401)
    | Some row_ =>
        if negb (_verify_password password (u_password_hash row_))
        then (ErrorJson "invalid_credentials", 401)
        else (TokenJson (create_token e (u_id row_) username) username, 200)
    end.

(** ** Profile *)

Definition row_to_dict (u : user) : profile_json :=
  mkProfile (u_id u) (u_username u) (u_target_weight u) (u_daily_run_km u)
    (u_weigh_time u) (u_run_time u).

(** GET /api/me, for the authenticated user [uid] ([g.user_id]). *)
Definition me_get (db : database) (uid : Z) : result profile_json :=
  row_ <- or_raise (user_by_id db uid) AttributeError ;;
  Ok (row_to_dict row_).

Definition opt_default {A : Type} (o : option A) (dflt : A) : A :=
  match o with
  | Some a => a
  | None => dflt
  end.

(** [UPDATE users SET target_weight=?, daily_run_km=?, weigh_time=?,
    run_time=? WHERE id=?] *)
Definition update_goals (db : database) (uid : Z) (tw dr : number)
    (wt rt : string) : database :=
  mkDatabase
    (map (fun u => if u_id u =? uid
                   then mkUser (u_id u) (u_username u)
                          (u_password_hash u) (u_created_at u)
                          (num tw) (num dr) wt rt
                   else u) (users db))
    (weights db) (runs db) (seq_users db) (seq_weights db) (seq_runs db).

(** PUT /api/me, for a body whose numbers are [number]s: [float(...)] of
    such a value is the value, and the UPDATE stores it as it is. *)
Definition me_update (db : database) (uid : Z) (data : profile_input)
    : database * result profile_json :=
  let target_weight :=
    opt_default (in_target_weight data) (mkNumber 80%float eq_refl) in
  let daily_run_km :=
    opt_default (in_daily_run_km data) (mkNumber 10%float eq_refl) in
  let weigh_time := opt_default (in_weigh_time data) "08:00"%string in
  let run_time := opt_default (in_run_time data) "18:00"%string in
  let db' := update_goals db uid target_weight daily_run_km
               weigh_time run_time in
  (db', row_ <- or_raise (user_by_id db' uid) AttributeError ;;
        Ok (row_to_dict row_)).

(** ** Weights and runs *)

(** GET /api/weights?start=..&end=.. *)
Definition weights_list (db : database) (uid : Z)
    (start end_ : option string) : list weight_row :=
  select_range (weights db) uid start end_.

(** POST /api/weights: the new database and the (day, weight_kg) echoed
    in the body.  sqlite3 binds a NaN as NULL, which the NOT NULL column
    refuses: the INSERT raises and nothing is committed.  Otherwise the
    counter of the table moves to the row id the INSERT was given, also when
    the conflict clause turns it into an update. *)
Definition weights_add (db : database) (e : env) (uid : Z)
    (day_field : option string) (w : float)
    : database * result (string * float) :=
  let d := str_or day_field (today_str e) in
  if PrimFloat.is_nan w then (db, Raise IntegrityError)
  else
    let rowid := new_rowid (seq_weights db) (map id (weights db)) in
    (mkDatabase (users db)
                (upsert (weights db) rowid uid d w (sql_now e))
                (runs db) (seq_users db) rowid (seq_runs db),
     Ok (d, w)).

(** GET /api/runs?start=..&end=.. *)
Definition runs_list (db : database) (uid : Z)
    (start end_ : option string) : list run_row :=
  select_range (runs db) uid start end_.

(** POST /api/runs: as POST /api/weights, with two NOT NULL
    measurements. *)
Definition runs_add (db : database) (e : env) (uid : Z)
    (day_field : option string) (dist dur : float)
    : database * result (string * run_val) :=
  let d := str_or day_field (today_str e) in
  if PrimFloat.is_nan dist || PrimFloat.is_nan dur
  then (db, Raise IntegrityError)
  else
    let rowid := new_rowid (seq_runs db) (map id (runs db)) in
    (mkDatabase (users db) (weights db)
                (upsert (runs db) rowid uid d (mkRun dist dur) (sql_now e))
                (seq_users db) (seq_weights db) rowid,
     Ok (d, mkRun dist dur)).

(** ** Summary *)

(** The rows [SELECT SUM(distance_km) ... WHERE user_id=? AND day >= ?]
    adds up, in the order it scans them: through the index on
    (user_id, day). *)
Definition run_7d_rows (db : database) (uid : Z) (start7 : string)
    : list run_row :=
  index_order
    (filter (fun r => (user_id r =? uid) && String.leb start7 (day r))
            (runs db)).

Definition streak (db : database) (e : env) (uid : Z) (t : table_name)
    : result nat :=
  match t with
  | Weights => streak_of (weights db) uid (today e)
  | Runs => streak_of (runs db) uid (today e)
  end.

(** GET /api/summary. *)
Definition summary (db : database) (e : env) (uid : Z)
    : result summary_json :=
  let w := hd_error (order_by_day_desc
                       (filter (fun r => user_id r =? uid) (weights db))) in
  let latest_weight := option_map weight_kg w in
  let latest_weight_day := option_map day w in
  u <- or_raise (user_by_id db uid) TypeError ;;
  let target_weight := u_target_weight u in
  let daily_run_km := u_daily_run_km u in
  let delta_to_target :=
    option_map (fun lw => PrimFloat.sub lw target_weight) latest_weight in
  start7 <- or_raise (date_sub (today e) 6) OverflowError ;;
  let r7 := sql_sum (map (fun r => distance_km (val r))
                         (run_7d_rows db uid (isoformat start7))) in
  let run_7d_km := or_zero r7 in
  ws <- streak db e uid Weights ;;
  rs <- streak db e uid Runs ;;
  Ok (mkSummary latest_weight latest_weight_day delta_to_target
        daily_run_km run_7d_km ws rs).
End Handlers.

(** * The HTTP surface *)

(** ** Requests, responses and headers

    A request is its method, its path and the three headers the code reads;
    [request.headers.get] returns None for a header that is absent.  The
    headers of a response are an ordered list of pairs whose keys compare
    without regard to letter case, as werkzeug's [Headers] do. *)

Record request : Type := mkReq {
  method : string;
  path : string;
  h_origin : option string;            (* Origin *)
  h_acr_headers : option string;       (* Access-Control-Request-Headers *)
  h_authorization : option string      (* Authorization *)
}.

Inductive body (J : Type) : Type :=
| Raw (s : string)
| Json (j : J).
Arguments Raw {J} s.
Arguments Json {J} j.

Record response (J : Type) : Type := mkResp {
  status : Z;
  headers : list (string * string);
  data : body J
}.
Arguments mkResp {J} _ _ _.
Arguments status {J} _.
Arguments headers {J} _.
Arguments data {J} _.

(** [s.startswith(p)] *)
Fixpoint startswith (s p : string) : bool :=
  match p with
  | EmptyString => true
  | String c p' =>
      match s with
      | EmptyString => false
      | String d s' => Ascii.eqb c d && startswith s' p'
      end
  end.

(** [s.split(sep, 1)]: at most one cut, at the first [sep]. *)
Fixpoint split1 (sep : ascii) (s : string) : list string :=
  match s with
  | EmptyString => [EmptyString]
  | String c s' =>
      if Ascii.eqb c sep then [EmptyString; s']
      else match split1 sep s' with
           | x :: rest => String c x :: rest
           | [] => [String c EmptyString]
           end
  end.

Definition same_key (a b : string) : bool := String.eqb (lower a) (lower b).

(** [headers.get(key)] *)
Definition get_header (key : string) (hs : list (string * string))
    : option string :=
  option_map snd (find (fun kv => same_key (fst kv) key) hs).

(** [headers[key] = value]: the first entry for the key is replaced where
    it stands and later ones are dropped; a new key goes to the end. *)
Fixpoint set_header (key value : string) (hs : list (string * string))
    : list (string * string) :=
  match hs with
  | [] => [(key, value)]
  | kv :: rest =>
      if same_key (fst kv) key
      then (key, value)
             :: filter (fun x => negb (same_key (fst x) key)) rest
      else kv :: set_header key value rest
  end.

Definition with_headers {J : Type} (resp : response J)
    (kvs : list (string * string)) : response J :=
  mkResp (status resp)
         (fold_left (fun hs kv => set_header (fst kv) (snd kv) hs) kvs
                    (headers resp))
         (data resp).

(** ** CORS *)

Section Cors.
Context {J : Type}.

(** The headers [make_response] puts on an empty body are those of the
    framework. *)
Variable default_headers : list (string * string).

(** [@app.before_request]: a response for OPTIONS, else None. *)
Definition _log_and_cors_preflight (req : request) : option (response J) :=
  if String.eqb (method req) "OPTIONS"
  then
    let resp := mkResp 204 default_headers (Raw "") in
    let origin := str_or (h_origin req) "*" in
    let req_headers := h_acr_headers req in
    Some (with_headers resp
            [("Access-Control-Allow-Origin", origin);
             ("Access-Control-Allow-Methods",
              "GET,POST,PUT,DELETE,OPTIONS,PATCH");
             ("Access-Control-Allow-Headers",
              str_or req_headers "Authorization,Content-Type,Accept");
             ("Access-Control-Max-Age", "86400");
             ("Vary", "Origin")]%string)
  else None.

(** [@app.after_request] *)
Definition _log_and_cors_response (req : request) (resp : response J)
    : response J :=
  if startswith (path req) "/api"
  then
    let origin := str_or (h_origin req) "*" in
    let req_headers := h_acr_headers req in
    with_headers resp
      [("Access-Control-Allow-Origin", origin);
       ("Access-Control-Allow-Methods",
        "GET,POST,PUT,DELETE,OPTIONS,PATCH");
       ("Access-Control-Allow-Headers",
        str_or req_headers "Authorization,Content-Type,Accept");
       ("Access-Control-Expose-Headers", "Content-Type,Authorization");
       ("Vary", "Origin")]%string
  else resp.

(** One request through the application: a response of the before-request
    hook stands in for the view, and the after-request hook sees every
    response. *)
Definition serve (view : request -> response J) (req : request)
    : response J :=
  let rv :=
    match _log_and_cors_preflight req with
    | Some resp => resp
    | None => view req
    end in
  _log_and_cors_response req rv.
End Cors.

(** ** Bearer authentication *)

(** [jwt.decode(token, key, algorithms)] at a given time; None is
    jwt.PyJWTError. *)
Class Verifier : Type := {
  jwt_decode : string -> string -> list string -> Z -> option jwt_payload
}.

Inductive guarded (A : Type) : Type :=
| Denied (error : auth_json) (code : Z)   (* the 401 answers *)
| IndexError                              (* split(" ", 1)[1] *)
| Granted (a : A).                        (* fn ran *)
Arguments Denied {A} error code.
Arguments IndexError {A}.
Arguments Granted {A} a.

Section Guard.
Context {P : Platform} {D : Verifier}.

(** [auth_required(fn)]: [fn] receives [g.user_id] and [g.username]. *)
Definition auth_required {A : Type} (fn : Z -> string -> A) (e : env)
    (req : request) : guarded A :=
  let auth :=
    match h_authorization req with Some a => a | None => ""%string end in
  if negb (startswith auth "Bearer ")
  then Denied (ErrorJson "missing_token") 401
  else
    match nth_error (split1 " "%char auth) 1 with
    | None => IndexError
    | Some token =>
        match jwt_decode token SECRET_KEY [JWT_ALG] (unix_time e) with
        | None => Denied (ErrorJson "invalid_token") 401
        | Some payload => Granted (fn (sub payload) (username payload))
        end
    end.
End Guard.

(** ** Requests that write *)

Inductive write : Type :=
| PostRegister (e : env) (username_field password_field : option string)
| PutMe (uid : Z) (data : profile_input)
| PostWeights (e : env) (uid : Z) (day_field : option string) (w : float)
| PostRuns (e : env) (uid : Z) (day_field : option string)
           (dist dur : float).

(** The database after one writing request of an authenticated user. *)
Definition apply_write {P : Platform} {T : PyStr} (db : database)
    (w : write)
    : database :=
  match w with
  | PostRegister e uf pf => fst (register db e uf pf)
  | PutMe uid data => fst (me_update db uid data)
  | PostWeights e uid day_field w => fst (weights_add db e uid day_field w)
  | PostRuns e uid day_field dist dur =>
      fst (runs_add db e uid day_field dist dur)
  end.

(** The database after a history of writing requests, from the empty
    schema [init_db] creates. *)
Definition replay {P : Platform} {T : PyStr} (ws : list write)
    : database :=
  fold_left apply_write ws empty_db.

(** * Specification-side definitions *)

(** The streak of the spec: entries exist on the [n] days from [d]
    backward, and the day before those is a date without an entry. *)
Definition streak_count {V : Type} (tbl : list (row V)) (uid : Z) (d : date)
    (n : nat) : Prop :=
  (forall k, (k < n)%nat ->
     exists dk, date_sub d k = Some dk /\
                has_entry tbl uid (isoformat dk) = true) /\
  (exists dn, date_sub d n = Some dn /\
              has_entry tbl uid (isoformat dn) = false).

(** Descending by day: the first row is dated no earlier than the second. *)
Definition day_desc {V : Type} (r1 r2 : row V) : Prop :=
  String.leb (day r2) (day r1) = true.

(** The rows GET /api/weights and GET /api/runs are to return: those of
    the user, on or after [start] and on or before [end] when these are
    supplied. *)
Definition in_range {V : Type} (uid : Z) (start end_ : option string)
    (r : row V) : bool :=
  (user_id r =? uid) &&
  match supplied start with Some s => String.leb s (day r) | None => true end
  &&
  match supplied end_ with Some s => String.leb (day r) s | None => true end.

(** The UNIQUE(user_id, day) constraint of [weights] and [runs]. *)
Definition unique_days {V : Type} (tbl : list (row V)) : Prop :=
  NoDup (map (fun r => (user_id r, day r)) tbl).

(** The constraints of the schema that the handlers rely on. *)
Definition db_ok (db : database) : Prop :=
  NoDup (map u_id (users db)) /\
  NoDup (map u_username (users db)) /\
  unique_days (weights db) /\
  unique_days (runs db).

(** What holds of every database the handlers can produce: the UNIQUE
    constraints; distinct row ids, each at least 1 and at most the counter
    of its table; and users whose name is not empty and is what Python's
    strip and lower make of some text, and whose stored hash is the hash of
    a password that is not empty. *)
Definition db_wf {P : Platform} {T : PyStr} (db : database) : Prop :=
  db_ok db /\
  NoDup (map id (weights db)) /\
  NoDup (map id (runs db)) /\
  Forall (fun u => u_username u <> ""%string /\
                   (exists raw, u_username u = str_lower (str_strip raw)) /\
                   exists pw, pw <> ""%string /\
                              u_password_hash u = _hash_password pw)
         (users db) /\
  (0 <= seq_users db /\ 0 <= seq_weights db /\ 0 <= seq_runs db) /\
  Forall (fun x => 1 <= x <= seq_users db) (map u_id (users db)) /\
  Forall (fun x => 1 <= x <= seq_weights db) (map id (weights db)) /\
  Forall (fun x => 1 <= x <= seq_runs db) (map id (runs db)).

(** The database without the run of user [uid] on the day written [s]. *)
Definition without_run (db : database) (uid : Z) (s : string) : database :=
  mkDatabase (users db) (weights db)
             (filter (fun r => negb (on_day uid s r)) (runs db))
             (seq_users db) (seq_weights db) (seq_runs db).

(** ** Sample data

    A stand-in for the external primitives and a small database, used to run
    the handlers on concrete requests. *)

(** Python's methods as far as ASCII text goes. *)
Definition ascii_text : PyStr := {|
  str_strip := strip;
  str_lower := lower;
  str_strip_ascii := fun _ _ => eq_refl;
  str_lower_ascii := fun _ _ => eq_refl
|}.

(** Plain accumulation, as SQLite did before it took to compensated
    summation. *)
Definition plain_sum : SqlReal := {|
  real_sum := fun l => fold_left PrimFloat.add l 0%float;
  real_sum_exact := fun _ _ => eq_refl
|}.

Definition test_platform : Platform := {|
  pbkdf2_hmac := fun _ password salt _ => (salt ++ password)%string;
  jwt_encode := fun payload key _ => (key ++ "." ++ username payload)%string;
  APP_SECRET := None
|}.

(** A stand-in for [jwt.decode]: it knows one token, valid until it
    expires. *)
Definition test_verifier : Verifier := {|
  jwt_decode := fun token _ _ now =>
    if String.eqb token "change_this_to_a_long_random_secret.bob"
       && (now <? 1795009600)
    then Some (mkPayload 2 "bob" 1793800000 1795009600)
    else None
|}.

Definition nov4 : date := mkDate 2026 11 4.

Definition sample_env : env := mkEnv nov4 1793800000 "2026-11-04 09:30:00".

Definition alice : user :=
  mkUser 1 "alice" (@_hash_password test_platform "wonderland")
    "2026-10-01 08:00:00" 80%float 10%float "08:00" "18:00".

Definition nov10_run : run_row :=
  mkRow 4 1 "2026-11-10" (mkRun 4%float 25%float) "2026-11-04 09:00:00".

Definition sample_db : database :=
  mkDb [alice]
    [ mkRow 1 1 "2026-10-30" 84.5%float "2026-10-30 08:01:00";
      mkRow 2 1 "2026-11-03" 83%float "2026-11-03 08:02:00";
      mkRow 3 1 "2026-11-04" 82.5%float "2026-11-04 08:03:00" ]
    [ mkRow 1 1 "2026-10-27" (mkRun 10%float 61%float) "2026-10-27 19:00:00";
      mkRow 2 1 "2026-11-01" (mkRun 3%float 18%float) "2026-11-01 19:00:00";
      mkRow 3 1 "2026-11-04" (mkRun 5%float 29%float) "2026-11-04 07:00:00" ].

(** The sample database with a run entered ahead of time. *)
Definition planned_db : database :=
  mkDb (users sample_db) (weights sample_db) (runs sample_db ++ [nov10_run]).

(** * Verification *)

Section Verification.
Context {Sq : SqlReal}.

(** ** The order on TEXT values *)

Lemma ascii_compare_refl (a : ascii) : Ascii.compare a a = Eq.
Proof. unfold Ascii.compare. apply N.compare_refl. Qed.

Lemma string_compare_refl (s : string) : String.compare s s = Eq.
Proof.
  induction s as [|a s IH]; simpl; [reflexivity|].
  now rewrite ascii_compare_refl.
Qed.

Lemma string_leb_refl (s : string) : String.leb s s = true.
Proof. unfold String.leb. now rewrite string_compare_refl. Qed.

Lemma string_compare_eq (s t : string) : String.compare s t = Eq <-> s = t.
Proof.
  split; [apply String.compare_eq_iff|].
  intros ->. apply string_compare_refl.
Qed.

Lemma string_leb_trans (a b c : string) :
  String.leb a b = true -> String.leb b c = true -> String.leb a c = true.
Proof.
  unfold String.leb. revert b c.
  induction a as [|x a IH]; intros [|y b] [|z c]; simpl; try easy.
  unfold Ascii.compare.
  destruct (N.compare_spec (N_of_ascii x) (N_of_ascii y)) as [E1|L1|G1];
    destruct (N.compare_spec (N_of_ascii y) (N_of_ascii z)) as [E2|L2|G2];
    destruct (N.compare_spec (N_of_ascii x) (N_of_ascii z)) as [E3|L3|G3];
    try easy; try lia.
  apply IH.
Qed.

Lemma string_leb_empty (s : string) : String.leb "" s = true.
Proof. now destruct s. Qed.

Lemma string_leb_ltb (s t : string) :
  String.leb s t = negb (String.ltb t s).
Proof.
  unfold String.leb, String.ltb. rewrite (String.compare_antisym t s).
  now destruct (String.compare s t).
Qed.

(** ** Calendar facts *)

Lemma days_in_month_bounds (y m : Z) : 28 <= days_in_month y m <= 31.
Proof.
  unfold days_in_month.
  destruct (m =? 2); [destruct (is_leap y); lia|].
  destruct ((m =? 4) || (m =? 6) || (m =? 9) || (m =? 11)); lia.
Qed.

Lemma valid_date_spec (d : date) :
  valid_date d = true <->
  1 <= year d <= 9999 /\ 1 <= month d <= 12 /\
  1 <= mday d <= days_in_month (year d) (month d).
Proof.
  unfold valid_date. rewrite !andb_true_iff, !Z.leb_le. tauto.
Qed.

Lemma valid_date_range (d : date) :
  valid_date d = true ->
  1 <= year d <= 9999 /\ 1 <= month d <= 12 /\ 1 <= mday d <= 31.
Proof.
  intros H. apply valid_date_spec in H.
  pose proof (days_in_month_bounds (year d) (month d)). lia.
Qed.

Lemma date_compare_code (a b : date) :
  valid_date a = true -> valid_date b = true ->
  date_compare a b = (date_code a ?= date_code b).
Proof.
  intros Ha Hb. apply valid_date_range in Ha, Hb.
  unfold date_compare, date_code.
  destruct (Z.compare_spec (year a) (year b));
    destruct (Z.compare_spec (month a) (month b));
    destruct (Z.compare_spec (mday a) (mday b));
    symmetry;
    first [apply Z.compare_eq_iff; lia | apply Z.compare_lt_iff; lia
          | apply Z.compare_gt_iff; lia].
Qed.

Lemma date_code_inj (a b : date) :
  valid_date a = true -> valid_date b = true ->
  date_code a = date_code b -> a = b.
Proof.
  intros Ha Hb E. apply valid_date_range in Ha, Hb.
  unfold date_code in E.
  destruct a as [y m d], b as [y' m' d']; cbn [year month mday] in *.
  assert (y = y') by lia. assert (m = m') by lia. assert (d = d') by lia.
  now subst.
Qed.

Lemma date_leb_code (a b : date) :
  valid_date a = true -> valid_date b = true ->
  date_leb a b = (date_code a <=? date_code b).
Proof.
  intros Ha Hb. unfold date_leb, Z.leb.
  now rewrite date_compare_code.
Qed.

Lemma date_ltb_code (a b : date) :
  valid_date a = true -> valid_date b = true ->
  date_ltb a b = (date_code a <? date_code b).
Proof.
  intros Ha Hb. unfold date_ltb, Z.ltb.
  now rewrite date_compare_code.
Qed.

Lemma prev_day_valid (d d' : date) :
  valid_date d = true -> prev_day d = Some d' -> valid_date d' = true.
Proof.
  intros Hd Hp. apply valid_date_spec in Hd. apply valid_date_spec.
  unfold prev_day in Hp.
  destruct (Z.ltb_spec 1 (mday d)).
  { inversion Hp; subst; cbn [year month mday]. lia. }
  destruct (Z.ltb_spec 1 (month d)).
  { inversion Hp; subst; cbn [year month mday].
    pose proof (days_in_month_bounds (year d) (month d - 1)). lia. }
  destruct (Z.ltb_spec 1 (year d)); [|discriminate].
  inversion Hp; subst; cbn [year month mday].
  change (days_in_month (year d - 1) 12) with 31. lia.
Qed.

(** The previous day is the date just below: no valid date lies between. *)
Lemma prev_day_code (d d' : date) :
  valid_date d = true -> prev_day d = Some d' ->
  date_code d' < date_code d /\
  forall x, valid_date x = true -> date_code x < date_code d ->
            date_code x <= date_code d'.
Proof.
  intros Hd Hp. apply valid_date_spec in Hd.
  unfold prev_day in Hp. unfold date_code.
  destruct (Z.ltb_spec 1 (mday d)).
  { inversion Hp; subst; cbn [year month mday]. split; [lia|].
    intros x Hx Hlt. lia. }
  destruct (Z.ltb_spec 1 (month d)).
  { inversion Hp; subst; cbn [year month mday].
    pose proof (days_in_month_bounds (year d) (month d - 1)).
    split; [lia|]. intros x Hx Hlt. apply valid_date_spec in Hx.
    pose proof (days_in_month_bounds (year x) (month x)).
    assert (year x < year d \/ year x = year d) as [Hy|Hy] by lia; [lia|].
    assert (month x < month d - 1 \/ month x = month d - 1
            \/ month x >= month d) as [Hm|[Hm|Hm]] by lia; [lia| |lia].
    rewrite Hy, Hm in Hx. lia. }
  destruct (Z.ltb_spec 1 (year d)); [|discriminate].
  inversion Hp; subst; cbn [year month mday]. split; [lia|]. intros x Hx Hlt.
  apply valid_date_range in Hx. lia.
Qed.

Lemma prev_day_bound (d d' : date) :
  valid_date d = true -> prev_day d = Some d' ->
  (scan_bound d' < scan_bound d)%nat.
Proof.
  intros Hd Hp. destruct (prev_day_code d d' Hd Hp) as [Hlt _].
  pose proof (prev_day_valid d d' Hd Hp) as Hd'.
  apply valid_date_range in Hd, Hd'.
  unfold scan_bound. unfold date_code in *. lia.
Qed.

Lemma scan_bound_pos (d : date) :
  valid_date d = true -> (0 < scan_bound d)%nat.
Proof.
  intros Hd. apply valid_date_range in Hd. unfold scan_bound, date_code. lia.
Qed.

Lemma date_sub_S (d : date) (k : nat) :
  date_sub d (S k) =
  match date_sub d k with Some d' => prev_day d' | None => None end.
Proof.
  revert d. induction k as [|k IH]; intros d.
  - simpl. now destruct (prev_day d).
  - change (date_sub d (S (S k))) with
      (match prev_day d with Some d' => date_sub d' (S k) | None => None end).
    destruct (prev_day d) as [d'|] eqn:E.
    + rewrite IH. simpl. now rewrite E.
    + simpl. now rewrite E.
Qed.

Lemma date_sub_valid (k : nat) (d d' : date) :
  valid_date d = true -> date_sub d k = Some d' -> valid_date d' = true.
Proof.
  revert d. induction k as [|k IH]; intros d Hd H; simpl in H.
  - now inversion H; subst.
  - destruct (prev_day d) as [p|] eqn:E; [|discriminate].
    apply (IH p); [eapply prev_day_valid; eauto | exact H].
Qed.

(** Taking days off moves the date down, and further for more days. *)
Lemma date_sub_code (k : nat) (d d' : date) :
  valid_date d = true -> date_sub d k = Some d' ->
  date_code d' <= date_code d - Z.of_nat k.
Proof.
  revert d. induction k as [|k IH]; intros d Hd H; simpl in H.
  - inversion H; subst. lia.
  - destruct (prev_day d) as [p|] eqn:E; [|discriminate].
    pose proof (prev_day_valid _ _ Hd E) as Hp.
    destruct (prev_day_code _ _ Hd E) as [Hlt _].
    specialize (IH p Hp H). lia.
Qed.

Lemma date_sub_le (j k : nat) (d dj dk : date) :
  valid_date d = true -> (j <= k)%nat ->
  date_sub d j = Some dj -> date_sub d k = Some dk ->
  date_code dk <= date_code dj - Z.of_nat (k - j).
Proof.
  revert d k. induction j as [|j IH]; intros d k Hd Hjk Hj Hk.
  - simpl in Hj. inversion Hj; subst.
    replace (k - 0)%nat with k by lia. now apply date_sub_code.
  - destruct k as [|k]; [lia|]. simpl in Hj, Hk.
    destruct (prev_day d) as [p|] eqn:E; [|discriminate].
    apply (IH p k); auto; [eapply prev_day_valid; eauto | lia].
Qed.

(** A date that can be reached can be reached in fewer days too. *)
Lemma date_sub_defined (j k : nat) (d dk : date) :
  (j <= k)%nat -> date_sub d k = Some dk -> exists dj, date_sub d j = Some dj.
Proof.
  revert d k. induction j as [|j IH]; intros d k Hjk Hk.
  - exists d. reflexivity.
  - destruct k as [|k]; [lia|]. simpl in *.
    destruct (prev_day d) as [p|]; [|discriminate].
    apply (IH p k); [lia | exact Hk].
Qed.

(** ** [isoformat] keeps the order of dates *)

Lemma digit_compare (x y : Z) :
  0 <= x <= 9 -> 0 <= y <= 9 ->
  Ascii.compare (digit x) (digit y) = (x ?= y).
Proof.
  intros Hx Hy. unfold Ascii.compare, digit.
  rewrite !N_ascii_embedding by lia.
  rewrite Z2N.inj_compare by lia.
  apply Z.add_compare_mono_l.
Qed.

Lemma pad2_compare (m n : Z) (r1 r2 : string) :
  0 <= m <= 99 -> 0 <= n <= 99 ->
  String.compare (pad2 m r1) (pad2 n r2) =
  match m ?= n with Eq => String.compare r1 r2 | c => c end.
Proof.
  intros Hm Hn. unfold pad2. cbn [String.compare].
  rewrite !digit_compare by (Z.div_mod_to_equations; lia).
  destruct (Z.compare_spec (m / 10) (n / 10)) as [E1|L1|G1].
  - destruct (Z.compare_spec (m mod 10) (n mod 10)) as [E2|L2|G2].
    + replace (m ?= n) with Eq; [reflexivity|].
      symmetry. apply Z.compare_eq_iff. Z.div_mod_to_equations. lia.
    + replace (m ?= n) with Lt; [reflexivity|].
      symmetry. apply Z.compare_lt_iff. Z.div_mod_to_equations. lia.
    + replace (m ?= n) with Gt; [reflexivity|].
      symmetry. apply Z.compare_gt_iff. Z.div_mod_to_equations. lia.
  - replace (m ?= n) with Lt; [reflexivity|].
    symmetry. apply Z.compare_lt_iff. Z.div_mod_to_equations. lia.
  - replace (m ?= n) with Gt; [reflexivity|].
    symmetry. apply Z.compare_gt_iff. Z.div_mod_to_equations. lia.
Qed.

Lemma pad4_pad2 (n : Z) (r : string) :
  0 <= n <= 9999 -> pad4 n r = pad2 (n / 100) (pad2 (n mod 100) r).
Proof.
  intros Hn. unfold pad4, pad2.
  replace (n / 100 / 10) with (n / 1000)
    by (Z.div_mod_to_equations; lia).
  replace (n mod 100 / 10) with (n / 10 mod 10)
    by (Z.div_mod_to_equations; lia).
  replace (n mod 100 mod 10) with (n mod 10)
    by (Z.div_mod_to_equations; lia).
  reflexivity.
Qed.

Lemma pad4_compare (m n : Z) (r1 r2 : string) :
  0 <= m <= 9999 -> 0 <= n <= 9999 ->
  String.compare (pad4 m r1) (pad4 n r2) =
  match m ?= n with Eq => String.compare r1 r2 | c => c end.
Proof.
  intros Hm Hn. rewrite !pad4_pad2 by assumption.
  rewrite pad2_compare by (Z.div_mod_to_equations; lia).
  destruct (Z.compare_spec (m / 100) (n / 100)) as [E1|L1|G1].
  - rewrite pad2_compare by (Z.div_mod_to_equations; lia).
    destruct (Z.compare_spec (m mod 100) (n mod 100)) as [E2|L2|G2].
    + replace (m ?= n) with Eq; [reflexivity|].
      symmetry. apply Z.compare_eq_iff. Z.div_mod_to_equations. lia.
    + replace (m ?= n) with Lt; [reflexivity|].
      symmetry. apply Z.compare_lt_iff. Z.div_mod_to_equations. lia.
    + replace (m ?= n) with Gt; [reflexivity|].
      symmetry. apply Z.compare_gt_iff. Z.div_mod_to_equations. lia.
  - replace (m ?= n) with Lt; [reflexivity|].
    symmetry. apply Z.compare_lt_iff. Z.div_mod_to_equations. lia.
  - replace (m ?= n) with Gt; [reflexivity|].
    symmetry. apply Z.compare_gt_iff. Z.div_mod_to_equations. lia.
Qed.

Lemma isoformat_compare (a b : date) :
  valid_date a = true -> valid_date b = true ->
  String.compare (isoformat a) (isoformat b) = date_compare a b.
Proof.
  intros Ha Hb. apply valid_date_range in Ha, Hb.
  unfold isoformat, date_compare.
  rewrite pad4_compare by lia.
  destruct (year a ?= year b); try reflexivity.
  cbn [String.compare]. rewrite ascii_compare_refl.
  rewrite pad2_compare by lia.
  destruct (month a ?= month b); try reflexivity.
  cbn [String.compare]. rewrite ascii_compare_refl.
  rewrite pad2_compare by lia.
  now destruct (mday a ?= mday b).
Qed.

Lemma isoformat_leb (a b : date) :
  valid_date a = true -> valid_date b = true ->
  String.leb (isoformat a) (isoformat b) = date_leb a b.
Proof.
  intros Ha Hb. unfold String.leb, date_leb.
  now rewrite isoformat_compare.
Qed.

Lemma isoformat_inj (a b : date) :
  valid_date a = true -> valid_date b = true ->
  isoformat a = isoformat b -> a = b.
Proof.
  intros Ha Hb E. apply date_code_inj; auto.
  apply Z.compare_eq_iff. rewrite <- date_compare_code by assumption.
  rewrite <- isoformat_compare by assumption.
  now apply string_compare_eq.
Qed.

(** ** The backward scan of [summary.streak] *)

Section Streak.
Context {V : Type}.
Variable tbl : list (row V).
Variable uid : Z.

Lemma streak_count_tail (d d' : date) (n : nat) :
  prev_day d = Some d' ->
  streak_count tbl uid d (S n) -> streak_count tbl uid d' n.
Proof.
  intros Hp [Hall [dn [Hdn Hno]]]. split.
  - intros k Hk. destruct (Hall (S k)) as [dk [Hdk Hyes]]; [lia|].
    simpl in Hdk. rewrite Hp in Hdk. eauto.
  - simpl in Hdn. rewrite Hp in Hdn. eauto.
Qed.

Lemma streak_count_cons (d d' : date) (n : nat) :
  prev_day d = Some d' -> has_entry tbl uid (isoformat d) = true ->
  streak_count tbl uid d' n -> streak_count tbl uid d (S n).
Proof.
  intros Hp Hd [Hall [dn [Hdn Hno]]]. split.
  - intros [|k] Hk.
    + exists d. split; [reflexivity | exact Hd].
    + destruct (Hall k) as [dk [Hdk Hyes]]; [lia|].
      exists dk. simpl. rewrite Hp. auto.
  - exists dn. simpl. rewrite Hp. auto.
Qed.

(** With the fuel [streak_of] gives it, the loop never runs dry. *)
Lemma streak_loop_fuel (fuel : nat) (d : date) (s : nat) :
  valid_date d = true -> (scan_bound d <= fuel)%nat ->
  streak_loop tbl uid fuel d s <> Raise OutOfFuel.
Proof.
  revert d s. induction fuel as [|fuel IH]; intros d s Hd Hf.
  - pose proof (scan_bound_pos d Hd). lia.
  - simpl. destruct (has_entry tbl uid (isoformat d)); [|discriminate].
    destruct (prev_day d) as [d'|] eqn:Hp; [|discriminate].
    apply IH; [eapply prev_day_valid; eauto|].
    pose proof (prev_day_bound d d' Hd Hp). lia.
Qed.

Lemma streak_loop_count (n fuel : nat) (d : date) (s : nat) :
  valid_date d = true -> (scan_bound d <= fuel)%nat ->
  streak_count tbl uid d n ->
  streak_loop tbl uid fuel d s = Ok (s + n)%nat.
Proof.
  revert fuel d s. induction n as [|n IH]; intros fuel d s Hd Hf Hc.
  - destruct Hc as [_ [dn [Hdn Hno]]]. simpl in Hdn. inversion Hdn; subst.
    destruct fuel as [|fuel];
      [pose proof (scan_bound_pos dn Hd); lia|].
    simpl. rewrite Hno. f_equal. lia.
  - destruct fuel as [|fuel];
      [pose proof (scan_bound_pos d Hd); lia|].
    pose proof Hc as [Hall [dn [Hdn Hno]]].
    destruct (Hall 0%nat) as [d0 [Hd0 Hyes]]; [lia|].
    simpl in Hd0. inversion Hd0; subst d0.
    simpl in Hdn. destruct (prev_day d) as [d'|] eqn:Hp; [|discriminate].
    simpl. rewrite Hyes, Hp.
    rewrite (IH fuel d' (S s)).
    + f_equal. lia.
    + eapply prev_day_valid; eauto.
    + pose proof (prev_day_bound d d' Hd Hp). lia.
    + now apply (streak_count_tail d).
Qed.

Lemma streak_loop_sound (fuel : nat) (d : date) (s r : nat) :
  streak_loop tbl uid fuel d s = Ok r ->
  exists n, r = (s + n)%nat /\ streak_count tbl uid d n.
Proof.
  revert d s. induction fuel as [|fuel IH]; intros d s H; simpl in H.
  - discriminate.
  - destruct (has_entry tbl uid (isoformat d)) eqn:Hd.
    + destruct (prev_day d) as [d'|] eqn:Hp; [|discriminate].
      destruct (IH _ _ H) as [n [-> Hc]].
      exists (S n). split; [lia|]. now apply (streak_count_cons d d').
    + inversion H; subst. exists 0%nat. split; [lia|].
      split; [intros k Hk; lia|]. exists d. now split.
Qed.

Lemma streak_of_count (d : date) (n : nat) :
  valid_date d = true -> streak_count tbl uid d n ->
  streak_of tbl uid d = Ok n.
Proof.
  intros Hd Hc. unfold streak_of.
  now rewrite (streak_loop_count n) by auto.
Qed.

Lemma streak_of_sound (d : date) (n : nat) :
  streak_of tbl uid d = Ok n -> streak_count tbl uid d n.
Proof.
  intros H. apply streak_loop_sound in H. destruct H as [m [-> Hc]].
  exact Hc.
Qed.

(** The count of the spec is unique. *)
Lemma streak_count_unique (d : date) (m n : nat) :
  streak_count tbl uid d m -> streak_count tbl uid d n -> m = n.
Proof.
  intros [Hm [dm [Hdm Hnm]]] [Hn [dn [Hdn Hnn]]].
  destruct (Nat.lt_trichotomy m n) as [L|[E|L]]; [|exact E|].
  - destruct (Hn m L) as [x [Hx Hyes]]. congruence.
  - destruct (Hm n L) as [x [Hx Hyes]]. congruence.
Qed.

(** The scan fails only when every day down to [date.min] has an entry. *)
Lemma streak_of_outcome (d : date) :
  valid_date d = true ->
  (exists n, streak_of tbl uid d = Ok n) \/
  streak_of tbl uid d = Raise OverflowError.
Proof.
  intros Hd. unfold streak_of.
  pose proof (streak_loop_fuel (scan_bound d) d 0%nat Hd (Nat.le_refl _)).
  assert (forall fuel x s e, streak_loop tbl uid fuel x s = Raise e ->
                             e = OutOfFuel \/ e = OverflowError) as Hexn.
  { induction fuel as [|fuel IH]; intros x s e Hr; simpl in Hr.
    - inversion Hr. auto.
    - destruct (has_entry tbl uid (isoformat x)); [|discriminate].
      destruct (prev_day x); [eauto|]. inversion Hr. auto. }
  destruct (streak_loop tbl uid (scan_bound d) d 0%nat) as [n|e] eqn:E.
  - left. eauto.
  - right. destruct (Hexn _ _ _ _ E); subst; [contradiction|reflexivity].
Qed.
End Streak.

(** ** The summary, step by step *)

Lemma summary_ok (db : database) (e : env) (uid : Z) (u : user)
    (start7 : date) (nw nr : nat) :
  user_by_id db uid = Some u ->
  date_sub (today e) 6 = Some start7 ->
  streak_of (weights db) uid (today e) = Ok nw ->
  streak_of (runs db) uid (today e) = Ok nr ->
  summary db e uid =
  let w := hd_error (order_by_day_desc
                       (filter (fun r => user_id r =? uid) (weights db))) in
  Ok (mkSummary (option_map weight_kg w) (option_map day w)
        (option_map (fun lw => PrimFloat.sub lw (u_target_weight u))
                    (option_map weight_kg w))
        (u_daily_run_km u)
        (or_zero (sql_sum (map (fun r => distance_km (val r))
                               (run_7d_rows db uid (isoformat start7)))))
        nw nr).
Proof.
  intros Hu H7 Hw Hr. unfold summary, streak.
  rewrite Hu, H7. cbn [or_raise bind]. rewrite Hw, Hr. reflexivity.
Qed.

Lemma summary_inv (db : database) (e : env) (uid : Z) (p : summary_json) :
  summary db e uid = Ok p ->
  exists u start7,
    user_by_id db uid = Some u /\
    date_sub (today e) 6 = Some start7 /\
    streak_of (weights db) uid (today e) = Ok (weigh_streak p) /\
    streak_of (runs db) uid (today e) = Ok (run_streak p).
Proof.
  unfold summary, streak. intros H.
  destruct (user_by_id db uid) as [u|]; [|discriminate].
  destruct (date_sub (today e) 6) as [start7|]; [|discriminate].
  cbn [or_raise bind] in H.
  destruct (streak_of (weights db) uid (today e)) as [nw|]; [|discriminate].
  destruct (streak_of (runs db) uid (today e)) as [nr|]; [|discriminate].
  cbn [bind] in H. inversion H; subst; cbn.
  exists u, start7. auto.
Qed.

(** The summary fails only when a scan reaches [date.min]. *)
Lemma summary_outcome (db : database) (e : env) (uid : Z) (u : user)
    (start7 : date) :
  valid_date (today e) = true ->
  user_by_id db uid = Some u ->
  date_sub (today e) 6 = Some start7 ->
  (exists p, summary db e uid = Ok p) \/
  summary db e uid = Raise OverflowError.
Proof.
  intros Hd Hu H7.
  destruct (streak_of_outcome (weights db) uid (today e) Hd) as [[nw Hw]|Hw];
    destruct (streak_of_outcome (runs db) uid (today e) Hd) as [[nr Hr]|Hr].
  - left. eexists. apply (summary_ok db e uid u start7 nw nr); auto.
  - right. unfold summary, streak. rewrite Hu, H7. cbn [or_raise bind].
    now rewrite Hw, Hr.
  - right. unfold summary, streak. rewrite Hu, H7. cbn [or_raise bind].
    now rewrite Hw.
  - right. unfold summary, streak. rewrite Hu, H7. cbn [or_raise bind].
    now rewrite Hw.
Qed.

(** C1: the streaks in the summary are the counts of consecutive days with
    an entry, walking back from today and stopping at the first day without
    one.  The summary of an existing user either returns or raises
    OverflowError; whenever such counts exist (some day on or before today
    has no entry) it returns them, and whatever it returns is such a count;
    with no entry today the streak is 0, and with entries today and
    yesterday but none the day before it is 2. *)
Theorem summary_streaks (db : database) (e : env) (uid : Z) :
  valid_date (today e) = true ->
  (forall u start7,
      user_by_id db uid = Some u ->
      date_sub (today e) 6 = Some start7 ->
      (exists p, summary db e uid = Ok p) \/
      summary db e uid = Raise OverflowError) /\
  (forall u start7 nw nr,
      user_by_id db uid = Some u ->
      date_sub (today e) 6 = Some start7 ->
      streak_count (weights db) uid (today e) nw ->
      streak_count (runs db) uid (today e) nr ->
      exists p, summary db e uid = Ok p /\
                weigh_streak p = nw /\ run_streak p = nr) /\
  (forall p, summary db e uid = Ok p ->
      streak_count (weights db) uid (today e) (weigh_streak p) /\
      streak_count (runs db) uid (today e) (run_streak p) /\
      (has_entry (weights db) uid (isoformat (today e)) = false ->
       weigh_streak p = 0%nat) /\
      (has_entry (runs db) uid (isoformat (today e)) = false ->
       run_streak p = 0%nat) /\
      (forall d1 d2,
          date_sub (today e) 1 = Some d1 -> date_sub (today e) 2 = Some d2 ->
          has_entry (weights db) uid (isoformat (today e)) = true ->
          has_entry (weights db) uid (isoformat d1) = true ->
          has_entry (weights db) uid (isoformat d2) = false ->
          weigh_streak p = 2%nat) /\
      (forall d1 d2,
          date_sub (today e) 1 = Some d1 -> date_sub (today e) 2 = Some d2 ->
          has_entry (runs db) uid (isoformat (today e)) = true ->
          has_entry (runs db) uid (isoformat d1) = true ->
          has_entry (runs db) uid (isoformat d2) = false ->
          run_streak p = 2%nat)).
Proof.
  intros Hd. split; [intros u start7; now apply summary_outcome|]. split.
  - intros u start7 nw nr Hu H7 Hw Hr.
    eexists. split.
    + apply (summary_ok db e uid u start7 nw nr Hu H7);
        now apply streak_of_count.
    + split; reflexivity.
  - intros p Hp.
    destruct (summary_inv db e uid p Hp) as [u [start7 [_ [_ [Sw Sr]]]]].
    apply streak_of_sound in Sw, Sr.
    assert (forall (V : Type) (tbl : list (row V)) n,
               streak_count tbl uid (today e) n ->
               has_entry tbl uid (isoformat (today e)) = false -> n = 0%nat)
      as Zero.
    { intros V tbl n Hc Hno.
      apply (streak_count_unique tbl uid (today e)); [exact Hc|].
      split; [intros k Hk; lia|]. exists (today e). now split. }
    assert (forall (V : Type) (tbl : list (row V)) n d1 d2,
               streak_count tbl uid (today e) n ->
               date_sub (today e) 1 = Some d1 ->
               date_sub (today e) 2 = Some d2 ->
               has_entry tbl uid (isoformat (today e)) = true ->
               has_entry tbl uid (isoformat d1) = true ->
               has_entry tbl uid (isoformat d2) = false -> n = 2%nat)
      as Two.
    { intros V tbl n d1 d2 Hc H1 H2 E0 E1 E2.
      apply (streak_count_unique tbl uid (today e)); [exact Hc|].
      split; [|exists d2; now split].
      intros [|[|k]] Hk; [exists (today e)|exists d1|lia]; now split. }
    split; [exact Sw|]. split; [exact Sr|].
    split; [apply (Zero _ _ _ Sw)|]. split; [apply (Zero _ _ _ Sr)|].
    split; intros d1 d2; [apply (Two _ _ _ _ _ Sw) | apply (Two _ _ _ _ _ Sr)].
Qed.

(** ** ORDER BY day DESC and the range filter *)

Section Select.
Context {V : Type}.
Implicit Types (r : row V) (l tbl : list (row V)).

Lemma insert_desc_perm r l : Permutation (r :: l) (insert_desc r l).
Proof.
  induction l as [|x l IH]; simpl; [reflexivity|].
  destruct (String.leb (day x) (day r)); [reflexivity|].
  rewrite perm_swap. now apply perm_skip.
Qed.

Lemma order_by_day_desc_perm l : Permutation l (order_by_day_desc l).
Proof.
  induction l as [|x l IH]; simpl; [constructor|].
  rewrite <- insert_desc_perm. now apply perm_skip.
Qed.

Lemma insert_desc_sorted r l :
  StronglySorted day_desc l -> StronglySorted day_desc (insert_desc r l).
Proof.
  induction 1 as [|x l Hs IH Hx]; simpl.
  - constructor; constructor.
  - destruct (String.leb (day x) (day r)) eqn:E.
    + constructor; [constructor; assumption|].
      constructor; [exact E|].
      eapply Forall_impl; [|exact Hx].
      intros y Hy. unfold day_desc in *.
      eapply string_leb_trans; eauto.
    + constructor; [exact IH|].
      apply (Permutation_Forall (insert_desc_perm r l)).
      constructor; [|exact Hx].
      unfold day_desc.
      destruct (String.leb_total (day x) (day r)); congruence.
Qed.

Lemma order_by_day_desc_sorted l :
  StronglySorted day_desc (order_by_day_desc l).
Proof.
  induction l as [|x l IH]; simpl; [constructor|].
  now apply insert_desc_sorted.
Qed.

Lemma order_by_day_desc_in r l : In r (order_by_day_desc l) <-> In r l.
Proof.
  split; apply Permutation_in;
    [symmetry|]; apply order_by_day_desc_perm.
Qed.

Lemma select_range_filter tbl uid start end_ :
  select_range tbl uid start end_ =
  order_by_day_desc (filter (in_range uid start end_) tbl).
Proof.
  unfold select_range. f_equal. apply filter_ext. intros r.
  unfold in_range, where_all.
  destruct (supplied start), (supplied end_); cbn [app forallb];
    rewrite ?andb_true_r, ?andb_assoc; reflexivity.
Qed.

Lemma select_range_spec tbl uid start end_ :
  let res := select_range tbl uid start end_ in
  StronglySorted day_desc res /\
  Permutation res (filter (in_range uid start end_) tbl) /\
  (forall r, In r res <->
     In r tbl /\ user_id r = uid /\
     (forall s, supplied start = Some s -> String.leb s (day r) = true) /\
     (forall s, supplied end_ = Some s -> String.leb (day r) s = true)).
Proof.
  intros res. unfold res. rewrite select_range_filter.
  split; [apply order_by_day_desc_sorted|].
  split; [symmetry; apply order_by_day_desc_perm|].
  intros r. rewrite order_by_day_desc_in, filter_In.
  unfold in_range. rewrite !andb_true_iff, Z.eqb_eq.
  destruct (supplied start) as [s|], (supplied end_) as [t|];
    split.
  all: try (intros [Hin [[Hu Hs] Ht]]; repeat split; auto;
            intros x Hx; now inversion Hx; subst).
  all: intros [Hin [Hu [Hs Ht]]]; repeat split; auto.
Qed.

(** Under UNIQUE(user_id, day) the rows of one user never tie. *)
Lemma unique_days_no_tie tbl r1 r2 :
  unique_days tbl -> In r1 tbl -> In r2 tbl ->
  user_id r1 = user_id r2 -> day r1 = day r2 -> r1 = r2.
Proof.
  unfold unique_days. induction tbl as [|x tbl IH]; [easy|].
  cbn [map]. intros Hnd H1 H2 Hu Hd. inversion Hnd as [|k ks Hk Hks]; subst.
  destruct H1 as [->|H1], H2 as [->|H2]; auto.
  - exfalso. apply Hk. rewrite Hu, Hd.
    now apply (in_map (fun r => (user_id r, day r))).
  - exfalso. apply Hk. rewrite <- Hu, <- Hd.
    now apply (in_map (fun r => (user_id r, day r))).
Qed.
End Select.

(** ** The trailing 7-day window *)

(** On rows whose day is the ISO text of a date, the WHERE clause of the
    7-day sum is the comparison of dates. *)
Lemma run_7d_rows_dates (db : database) (uid : Z) (start7 : date)
    (date_of : run_row -> date) :
  valid_date start7 = true ->
  (forall r, In r (runs db) ->
     valid_date (date_of r) = true /\ day r = isoformat (date_of r)) ->
  run_7d_rows db uid (isoformat start7) =
  index_order
    (filter (fun r => (user_id r =? uid) && date_leb start7 (date_of r))
            (runs db)).
Proof.
  intros H7 Hrows. unfold run_7d_rows. f_equal. apply filter_ext_in.
  intros r Hr. destruct (Hrows r Hr) as [Hv ->].
  now rewrite isoformat_leb.
Qed.

Lemma filter_filter {A : Type} (f g : A -> bool) (l : list A) :
  filter f (filter g l) = filter (fun x => g x && f x) l.
Proof.
  induction l as [|a l IH]; simpl; [reflexivity|].
  destruct (g a); simpl; [destruct (f a)|]; now rewrite IH.
Qed.

Lemma run_7d_rows_user (db : database) (uid : Z) (s : string) :
  run_7d_rows db uid s =
  index_order
    (filter (fun r => String.leb s (day r))
            (filter (fun r => user_id r =? uid) (runs db))).
Proof. unfold run_7d_rows. now rewrite filter_filter. Qed.

(** The index order is a rearrangement of the rows. *)
Lemma index_order_perm {V : Type} (l : list (row V)) :
  Permutation (index_order l) l.
Proof.
  unfold index_order. etransitivity; [symmetry; apply Permutation_rev|].
  symmetry. apply order_by_day_desc_perm.
Qed.

Lemma index_order_nil {V : Type} (l : list (row V)) :
  index_order l = [] <-> l = [].
Proof.
  split; intros H.
  - apply Permutation_nil. rewrite <- H. apply index_order_perm.
  - subst l. reflexivity.
Qed.

Lemma filter_perm {A : Type} (f : A -> bool) (l l' : list A) :
  Permutation l l' -> Permutation (filter f l) (filter f l').
Proof.
  induction 1 as [|x l l' _ IH|x y l|l l' l'' _ IH1 _ IH2]; cbn [filter].
  - constructor.
  - destruct (f x); [now constructor|exact IH].
  - destruct (f x), (f y); try apply Permutation_refl. apply perm_swap.
  - now transitivity (filter f l').
Qed.

(** When no partial sum rounds, [SUM] is the running sum of the values. *)
Lemma sql_sum_exact (l : list float) :
  exact_sums l 0%float = true ->
  or_zero (sql_sum l) = or_zero (sql_real (fold_left PrimFloat.add l 0%float)).
Proof.
  intros H. destruct l as [|x l]; [reflexivity|].
  cbn [sql_sum]. now rewrite (real_sum_exact _ H).
Qed.

(** C2: run_7d_km is SQLite's SUM of the distances of the user's runs dated
    today - 6 days or later, taken in day order, and 0 when there is none;
    when no partial sum rounds it is their running sum; runs of 5, 3 and
    10 km on today, today - 3 and today - 8, stored in any order, give 8. *)
Theorem run_7d_km_window (db : database) (e : env) (uid : Z) (u : user)
    (start7 : date) (date_of : run_row -> date) :
  valid_date (today e) = true ->
  user_by_id db uid = Some u ->
  date_sub (today e) 6 = Some start7 ->
  (forall r, In r (runs db) ->
     valid_date (date_of r) = true /\ day r = isoformat (date_of r)) ->
  let in_window :=
    index_order
      (filter (fun r => (user_id r =? uid) && date_leb start7 (date_of r))
              (runs db)) in
  let distances := map (fun r => distance_km (val r)) in_window in
  (forall nw nr,
      streak_count (weights db) uid (today e) nw ->
      streak_count (runs db) uid (today e) nr ->
      exists p, summary db e uid = Ok p) /\
  (forall p, summary db e uid = Ok p ->
      run_7d_km p = or_zero (sql_sum distances) /\
      ((forall r, In r (runs db) -> user_id r = uid ->
                  date_ltb (date_of r) start7 = true) ->
       run_7d_km p = 0%float) /\
      (exact_sums distances 0%float = true ->
       run_7d_km p =
         or_zero (sql_real (fold_left PrimFloat.add distances 0%float))) /\
      (forall r0 r3 r8 d3 d8,
          Permutation (filter (fun r => user_id r =? uid) (runs db))
                      [r0; r3; r8] ->
          date_sub (today e) 3 = Some d3 -> date_sub (today e) 8 = Some d8 ->
          date_of r0 = today e -> date_of r3 = d3 -> date_of r8 = d8 ->
          distance_km (val r0) = 5%float ->
          distance_km (val r3) = 3%float ->
          distance_km (val r8) = 10%float ->
          run_7d_km p = 8%float)).
Proof.
  intros Hd Hu H7 Hrows in_window distances.
  pose proof (date_sub_valid _ _ _ Hd H7) as Hv7.
  split.
  - intros nw nr Hw Hr. eexists.
    apply (summary_ok db e uid u start7 nw nr Hu H7);
      now apply streak_of_count.
  - intros p Hp.
    assert (run_7d_km p = or_zero (sql_sum distances)) as Hkm.
    { destruct (summary_inv db e uid p Hp) as [u' [s7 [Hu' [H7' [Sw Sr]]]]].
      rewrite (summary_ok db e uid u' s7 _ _ Hu' H7' Sw Sr) in Hp.
      injection Hp as <-. cbn [run_7d_km].
      assert (s7 = start7) by congruence. subst s7.
      now rewrite (run_7d_rows_dates db uid start7 date_of Hv7 Hrows). }
    split; [exact Hkm|]. split; [|split].
    + intros Hnone. rewrite Hkm.
      assert (in_window = []) as Hnil.
      { apply index_order_nil.
        destruct (filter _ (runs db)) as [|r l] eqn:E; [reflexivity|].
        assert (In r (r :: l)) as Hin by now left.
        rewrite <- E in Hin. apply filter_In in Hin as [Hin Hc].
        apply andb_prop in Hc as [Hc1 Hc2]. apply Z.eqb_eq in Hc1.
        specialize (Hnone r Hin Hc1).
        destruct (Hrows r Hin) as [Hvr _].
        rewrite date_leb_code in Hc2 by assumption.
        rewrite date_ltb_code in Hnone by assumption.
        apply Z.leb_le in Hc2. apply Z.ltb_lt in Hnone. lia. }
      unfold distances. rewrite Hnil. reflexivity.
    + intros Hex. rewrite Hkm. now apply sql_sum_exact.
    + intros r0 r3 r8 d3 d8 Hmine H3 H8 E0 E3 E8 K0 K3 K8.
      rewrite Hkm.
      pose proof (date_sub_valid _ _ _ Hd H3) as Hv3.
      pose proof (date_sub_valid _ _ _ Hd H8) as Hv8.
      pose proof (date_sub_code _ _ _ Hd H7) as C7.
      pose proof (date_sub_le 3 6 _ _ _ Hd ltac:(lia) H3 H7) as C36.
      pose proof (date_sub_le 6 8 _ _ _ Hd ltac:(lia) H7 H8) as C68.
      assert (Permutation in_window [r0; r3]) as Hperm.
      { unfold in_window. etransitivity; [apply index_order_perm|].
        rewrite <- filter_filter.
        etransitivity; [apply filter_perm, Hmine|].
        cbn [filter]. rewrite E0, E3, E8.
        rewrite !date_leb_code by assumption.
        replace (date_code start7 <=? date_code (today e)) with true
          by (symmetry; apply Z.leb_le; lia).
        replace (date_code start7 <=? date_code d3) with true
          by (symmetry; apply Z.leb_le; lia).
        replace (date_code start7 <=? date_code d8) with false
          by (symmetry; apply Z.leb_gt; lia).
        apply Permutation_refl. }
      apply Permutation_sym, Permutation_length_2_inv in Hperm.
      unfold distances.
      destruct Hperm as [-> | ->]; cbn [map]; rewrite K0, K3;
        cbn [sql_sum]; rewrite real_sum_exact by reflexivity; reflexivity.
Qed.

(** ** Entries dated after today *)

Section ScanAgreement.
Context {V : Type}.
Variables tbl1 tbl2 : list (row V).
Variable uid : Z.

(** The scan from [d] only looks at days on or before [d]. *)
Lemma streak_loop_agree (fuel : nat) (d : date) (s : nat) :
  valid_date d = true ->
  (forall x, valid_date x = true -> date_code x <= date_code d ->
     has_entry tbl1 uid (isoformat x) = has_entry tbl2 uid (isoformat x)) ->
  streak_loop tbl1 uid fuel d s = streak_loop tbl2 uid fuel d s.
Proof.
  revert d s. induction fuel as [|fuel IH]; intros d s Hd Hsame;
    [reflexivity|].
  simpl. rewrite (Hsame d Hd) by lia.
  destruct (has_entry tbl2 uid (isoformat d)); [|reflexivity].
  destruct (prev_day d) as [d'|] eqn:Hp; [|reflexivity].
  pose proof (prev_day_valid _ _ Hd Hp) as Hd'.
  destruct (prev_day_code _ _ Hd Hp) as [Hlt _].
  apply IH; [exact Hd'|].
  intros x Hx Hle. apply Hsame; [exact Hx | lia].
Qed.
End ScanAgreement.

Lemma has_entry_filter_other {V : Type} (tbl : list (row V)) (uid : Z)
    (s t : string) :
  s <> t ->
  has_entry (filter (fun r => negb (on_day uid s r)) tbl) uid t =
  has_entry tbl uid t.
Proof.
  intros Hst. unfold has_entry.
  induction tbl as [|r tbl IH]; [reflexivity|].
  cbn [filter existsb].
  destruct (on_day uid s r) eqn:Es; cbn [negb existsb]; rewrite IH.
  - replace (on_day uid t r) with false; [reflexivity|].
    unfold on_day in *. apply andb_true_iff in Es. destruct Es as [_ Es].
    apply String.eqb_eq in Es. symmetry. apply andb_false_iff. right.
    apply String.eqb_neq. congruence.
  - reflexivity.
Qed.

(** C9: the 7-day sum has a lower bound only, so a run dated after today
    is among the rows whose distances SQLite's SUM adds up, while the run
    streak is the same with or without that run. *)
Theorem future_run_in_sum_not_in_streak (db : database) (e : env) (uid : Z)
    (start7 d : date) (r : run_row) :
  valid_date (today e) = true ->
  valid_date d = true ->
  date_ltb (today e) d = true ->
  date_sub (today e) 6 = Some start7 ->
  In r (runs db) -> user_id r = uid -> day r = isoformat d ->
  In r (run_7d_rows db uid (isoformat start7)) /\
  (forall p, summary db e uid = Ok p ->
     run_7d_km p =
       or_zero (sql_sum (map (fun x => distance_km (val x))
                             (run_7d_rows db uid (isoformat start7))))) /\
  streak (without_run db uid (day r)) e uid Runs = streak db e uid Runs /\
  (forall p p', summary db e uid = Ok p ->
     summary (without_run db uid (day r)) e uid = Ok p' ->
     run_streak p' = run_streak p).
Proof.
  intros Ht Hd Hlt H7 Hin Hu Hday.
  pose proof (date_sub_valid _ _ _ Ht H7) as Hv7.
  pose proof (date_sub_code _ _ _ Ht H7) as C7.
  rewrite date_ltb_code in Hlt by assumption. apply Z.ltb_lt in Hlt.
  assert (streak (without_run db uid (day r)) e uid Runs =
          streak db e uid Runs) as Hstreak.
  { unfold streak, streak_of, without_run. cbn [runs].
    apply streak_loop_agree; [exact Ht|].
    intros x Hx Hle. apply has_entry_filter_other.
    rewrite Hday. intros E. apply isoformat_inj in E; auto.
    subst x. lia. }
  split; [|split; [|split]].
  - unfold run_7d_rows.
    apply (Permutation_in r (Permutation_sym (index_order_perm _))).
    apply filter_In. split; [exact Hin|].
    rewrite Hu, Z.eqb_refl, Hday. cbn [andb].
    rewrite isoformat_leb, date_leb_code by assumption.
    apply Z.leb_le. lia.
  - intros p Hp.
    destruct (summary_inv db e uid p Hp) as [u' [s7 [Hu' [H7' [Sw Sr]]]]].
    rewrite (summary_ok db e uid u' s7 _ _ Hu' H7' Sw Sr) in Hp.
    injection Hp as <-. cbn [run_7d_km].
    assert (s7 = start7) by congruence. now subst s7.
  - exact Hstreak.
  - intros p p' Hp Hp'.
    apply summary_inv in Hp, Hp'.
    destruct Hp as [_ [_ [_ [_ [_ Sr]]]]].
    destruct Hp' as [_ [_ [_ [_ [_ Sr']]]]].
    unfold streak in Hstreak. rewrite Hstreak in Sr'. congruence.
Qed.

(** ** The range filter on dated rows *)

Lemma isoformat_supplied (d : date) :
  supplied (Some (isoformat d)) = Some (isoformat d).
Proof. reflexivity. Qed.

Section SelectDates.
Context {V : Type}.

(** The range filter read on dates: for rows and bounds that are ISO
    texts of dates, the bytewise comparison is the calendar's. *)
Lemma select_range_dates (tbl : list (row V)) (uid : Z)
    (ds de : option date) (date_of : row V -> date) :
  (forall d, ds = Some d -> valid_date d = true) ->
  (forall d, de = Some d -> valid_date d = true) ->
  (forall r, In r tbl ->
     valid_date (date_of r) = true /\ day r = isoformat (date_of r)) ->
  forall r,
    In r (select_range tbl uid (option_map isoformat ds)
                       (option_map isoformat de)) <->
    In r tbl /\ user_id r = uid /\
    (forall d, ds = Some d -> date_leb d (date_of r) = true) /\
    (forall d, de = Some d -> date_leb (date_of r) d = true).
Proof.
  intros Hds Hde Hrows r.
  destruct (select_range_spec tbl uid (option_map isoformat ds)
              (option_map isoformat de)) as [_ [_ Hiff]].
  rewrite Hiff. clear Hiff.
  split; intros [Hin [Hu [Hs He]]]; (split; [exact Hin|]);
    (split; [exact Hu|]); destruct (Hrows r Hin) as [Hv Hday].
  - split; intros d ->.
    + rewrite <- isoformat_leb, <- Hday by auto. now apply Hs.
    + rewrite <- isoformat_leb, <- Hday by auto. now apply He.
  - split; intros s Hsup.
    + destruct ds as [d|]; [|discriminate].
      cbn [option_map] in Hsup. rewrite isoformat_supplied in Hsup.
      injection Hsup as <-. rewrite Hday, isoformat_leb by auto.
      now apply Hs.
    + destruct de as [d|]; [|discriminate].
      cbn [option_map] in Hsup. rewrite isoformat_supplied in Hsup.
      injection Hsup as <-. rewrite Hday, isoformat_leb by auto.
      now apply He.
Qed.
End SelectDates.

(** C8: weights_list and runs_list return exactly the user's entries that
    lie within the supplied bounds, both inclusive, ordered by day
    descending.  A bound is supplied when the query parameter is present and
    not empty; on ISO dates the comparison of the day texts is the
    comparison of the dates. *)
Theorem lists_sorted_in_range (db : database) (uid : Z)
    (start end_ : option string) :
  (let res := weights_list db uid start end_ in
   StronglySorted day_desc res /\
   Permutation res (filter (in_range uid start end_) (weights db)) /\
   (forall r, In r res <->
      In r (weights db) /\ user_id r = uid /\
      (forall s, supplied start = Some s -> String.leb s (day r) = true) /\
      (forall s, supplied end_ = Some s -> String.leb (day r) s = true))) /\
  (let res := runs_list db uid start end_ in
   StronglySorted day_desc res /\
   Permutation res (filter (in_range uid start end_) (runs db)) /\
   (forall r, In r res <->
      In r (runs db) /\ user_id r = uid /\
      (forall s, supplied start = Some s -> String.leb s (day r) = true) /\
      (forall s, supplied end_ = Some s -> String.leb (day r) s = true))) /\
  (forall (ds de : option date) (date_of : weight_row -> date),
      (forall d, ds = Some d -> valid_date d = true) ->
      (forall d, de = Some d -> valid_date d = true) ->
      (forall r, In r (weights db) ->
         valid_date (date_of r) = true /\ day r = isoformat (date_of r)) ->
      forall r,
        In r (weights_list db uid (option_map isoformat ds)
                           (option_map isoformat de)) <->
        In r (weights db) /\ user_id r = uid /\
        (forall d, ds = Some d -> date_leb d (date_of r) = true) /\
        (forall d, de = Some d -> date_leb (date_of r) d = true)) /\
  (forall (ds de : option date) (date_of : run_row -> date),
      (forall d, ds = Some d -> valid_date d = true) ->
      (forall d, de = Some d -> valid_date d = true) ->
      (forall r, In r (runs db) ->
         valid_date (date_of r) = true /\ day r = isoformat (date_of r)) ->
      forall r,
        In r (runs_list db uid (option_map isoformat ds)
                        (option_map isoformat de)) <->
        In r (runs db) /\ user_id r = uid /\
        (forall d, ds = Some d -> date_leb d (date_of r) = true) /\
        (forall d, de = Some d -> date_leb (date_of r) d = true)).
Proof.
  split; [apply select_range_spec|].
  split; [apply select_range_spec|].
  split; intros ds de date_of; apply select_range_dates.
Qed.

(** ** Upsert by (user, day) *)

Section Upsert.
Context {V : Type}.
Implicit Types (r : row V) (tbl : list (row V)).

Lemma has_entry_true tbl uid d :
  has_entry tbl uid d = true <->
  exists r, In r tbl /\ user_id r = uid /\ day r = d.
Proof.
  unfold has_entry. rewrite existsb_exists. unfold on_day.
  split; intros [r [Hin H]]; exists r; (split; [exact Hin|]).
  - apply andb_true_iff in H. destruct H as [Hu Hd].
    apply Z.eqb_eq in Hu. apply String.eqb_eq in Hd. now split.
  - destruct H as [-> ->]. now rewrite Z.eqb_refl, String.eqb_refl.
Qed.

Lemma has_entry_false tbl uid d :
  has_entry tbl uid d = false <->
  forall r, In r tbl -> ~ (user_id r = uid /\ day r = d).
Proof.
  rewrite <- not_true_iff_false, has_entry_true. split.
  - intros H r Hin Hk. apply H. eauto.
  - intros H [r [Hin Hk]]. now apply (H r).
Qed.

Lemma on_day_key uid d r :
  on_day uid d r = true <-> (user_id r, day r) = (uid, d).
Proof.
  unfold on_day. rewrite andb_true_iff, Z.eqb_eq, String.eqb_eq.
  split; [intros [-> ->]; reflexivity | intros E; now inversion E].
Qed.

(** The conflict branch leaves ids, keys and timestamps as they are. *)
Lemma upsert_update_keys tbl uid d (v : V) :
  map (fun r => (user_id r, day r))
      (map (fun r => if on_day uid d r
                     then mkRow (id r) (user_id r) (day r) v (created_at r)
                     else r) tbl) =
  map (fun r => (user_id r, day r)) tbl.
Proof.
  rewrite map_map. apply map_ext. intros r.
  now destruct (on_day uid d r).
Qed.

Lemma upsert_unique tbl rowid uid d (v : V) now :
  unique_days tbl -> unique_days (upsert tbl rowid uid d v now).
Proof.
  unfold unique_days, upsert. intros Hnd.
  destruct (has_entry tbl uid d) eqn:E.
  - now rewrite upsert_update_keys.
  - rewrite map_app. cbn [map user_id day].
    apply NoDup_app; [exact Hnd | repeat constructor; easy |].
    intros k Hk [<-|[]].
    apply in_map_iff in Hk. destruct Hk as [r [Hr Hin]].
    apply (proj1 (has_entry_false tbl uid d) E r Hin).
    now inversion Hr.
Qed.

(** After an upsert the day holds the value written, and only that. *)
Lemma upsert_has tbl rowid uid d (v : V) now :
  has_entry (upsert tbl rowid uid d v now) uid d = true.
Proof.
  unfold upsert. destruct (has_entry tbl uid d) eqn:E.
  - apply has_entry_true in E. destruct E as [r [Hin [Hu Hd]]].
    apply has_entry_true.
    exists (mkRow (id r) (user_id r) (day r) v (created_at r)).
    split; [|now split].
    apply in_map_iff. exists r. split; [|exact Hin].
    replace (on_day uid d r) with true; [reflexivity|].
    symmetry. apply on_day_key. now rewrite Hu, Hd.
  - apply has_entry_true. eexists. split; [apply in_or_app; right; now left|].
    now split.
Qed.

Lemma upsert_val tbl rowid uid d (v : V) now r :
  In r (upsert tbl rowid uid d v now) ->
  user_id r = uid -> day r = d -> val r = v.
Proof.
  unfold upsert. intros Hin Hu Hd.
  destruct (has_entry tbl uid d) eqn:E.
  - apply in_map_iff in Hin. destruct Hin as [x [Hx Hin]].
    destruct (on_day uid d x) eqn:Ex; subst r; [reflexivity|].
    exfalso. apply not_true_iff_false in Ex. apply Ex.
    apply on_day_key. now rewrite Hu, Hd.
  - apply in_app_or in Hin. destruct Hin as [Hin|[<-|[]]]; [|reflexivity].
    exfalso. now apply (proj1 (has_entry_false tbl uid d) E r Hin).
Qed.

(** Rows of other users and other days are untouched. *)
Lemma upsert_other tbl rowid uid d (v : V) now r :
  (user_id r, day r) <> (uid, d) ->
  (In r (upsert tbl rowid uid d v now) <-> In r tbl).
Proof.
  unfold upsert. intros Hk.
  destruct (has_entry tbl uid d) eqn:E.
  - rewrite in_map_iff. split.
    + intros [x [Hx Hin]]. destruct (on_day uid d x) eqn:Ex.
      * exfalso. apply Hk. subst r. cbn. now apply on_day_key.
      * now subst.
    + intros Hin. exists r. split; [|exact Hin].
      destruct (on_day uid d r) eqn:Ex; [|reflexivity].
      exfalso. apply Hk. now apply on_day_key.
  - rewrite in_app_iff. split; [|tauto].
    intros [Hin|[<-|[]]]; [exact Hin|]. exfalso. now apply Hk.
Qed.


End Upsert.

(** ** The schema constraints are kept by the writes *)

Lemma empty_db_ok : db_ok empty_db.
Proof. repeat split; constructor. Qed.

(** The two outcomes of a write: a NaN is refused and nothing changes;
    any other value is upserted. *)
Lemma weights_add_nan (db : database) (e : env) (uid : Z)
    (day_field : option string) (w : float) :
  PrimFloat.is_nan w = true ->
  weights_add db e uid day_field w = (db, Raise IntegrityError).
Proof. intros H. unfold weights_add. now rewrite H. Qed.

Lemma weights_add_number (db : database) (e : env) (uid : Z)
    (day_field : option string) (w : float) :
  PrimFloat.is_nan w = false ->
  let d := str_or day_field (today_str e) in
  let rowid := new_rowid (seq_weights db) (map id (weights db)) in
  weights_add db e uid day_field w =
  (mkDatabase (users db) (upsert (weights db) rowid uid d w (sql_now e))
     (runs db) (seq_users db) rowid (seq_runs db),
   Ok (d, w)).
Proof. intros H. unfold weights_add. now rewrite H. Qed.

Lemma runs_add_nan (db : database) (e : env) (uid : Z)
    (day_field : option string) (dist dur : float) :
  PrimFloat.is_nan dist = true \/ PrimFloat.is_nan dur = true ->
  runs_add db e uid day_field dist dur = (db, Raise IntegrityError).
Proof.
  intros H. unfold runs_add.
  replace (PrimFloat.is_nan dist || PrimFloat.is_nan dur) with true;
    [reflexivity|].
  symmetry. apply orb_true_iff. exact H.
Qed.

Lemma runs_add_number (db : database) (e : env) (uid : Z)
    (day_field : option string) (dist dur : float) :
  PrimFloat.is_nan dist = false -> PrimFloat.is_nan dur = false ->
  let d := str_or day_field (today_str e) in
  let rowid := new_rowid (seq_runs db) (map id (runs db)) in
  runs_add db e uid day_field dist dur =
  (mkDatabase (users db) (weights db)
     (upsert (runs db) rowid uid d (mkRun dist dur) (sql_now e))
     (seq_users db) (seq_weights db) rowid,
   Ok (d, mkRun dist dur)).
Proof. intros H1 H2. unfold runs_add. now rewrite H1, H2. Qed.

Lemma weights_add_ok (db : database) (e : env) (uid : Z)
    (day_field : option string) (w : float) :
  db_ok db -> db_ok (fst (weights_add db e uid day_field w)).
Proof.
  intros Hok. destruct (PrimFloat.is_nan w) eqn:E.
  - now rewrite weights_add_nan.
  - rewrite weights_add_number by exact E.
    destruct Hok as [Hi [Hn [Hw Hr]]]. unfold db_ok. cbn.
    repeat split; auto. now apply upsert_unique.
Qed.

Lemma runs_add_ok (db : database) (e : env) (uid : Z)
    (day_field : option string) (dist dur : float) :
  db_ok db -> db_ok (fst (runs_add db e uid day_field dist dur)).
Proof.
  intros Hok.
  destruct (PrimFloat.is_nan dist) eqn:E1;
    [rewrite runs_add_nan by (now left); exact Hok|].
  destruct (PrimFloat.is_nan dur) eqn:E2;
    [rewrite runs_add_nan by (now right); exact Hok|].
  rewrite runs_add_number by assumption.
  destruct Hok as [Hi [Hn [Hw Hr]]]. unfold db_ok. cbn.
  repeat split; auto. now apply upsert_unique.
Qed.

Ltac nodup_by_computation :=
  repeat (constructor; [cbn; intuition congruence|]); constructor.

Lemma sample_db_ok : db_ok sample_db.
Proof. repeat split; cbn; nodup_by_computation. Qed.


(** ** Profile update *)




(** ** Latest weight *)

Lemma weights_list_all (db : database) (uid : Z) :
  weights_list db uid None None =
  order_by_day_desc (filter (fun r => user_id r =? uid) (weights db)).
Proof.
  unfold weights_list. rewrite select_range_filter. f_equal.
  apply filter_ext. intros r. unfold in_range. cbn.
  now rewrite !andb_true_r.
Qed.

Lemma sorted_head_is_latest {V : Type} (l : list (row V)) (w : row V) :
  hd_error (order_by_day_desc l) = Some w ->
  In w l /\ forall r, In r l -> String.leb (day r) (day w) = true.
Proof.
  intros H.
  pose proof (order_by_day_desc_sorted l) as Hs.
  pose proof (order_by_day_desc_in w l) as Hw.
  assert (forall r, In r l -> In r (order_by_day_desc l)) as Hall
    by (intros r; apply order_by_day_desc_in).
  destruct (order_by_day_desc l) as [|x rest]; [discriminate|].
  injection H as ->. split; [apply Hw; now left|].
  intros r Hr. destruct (Hall r Hr) as [<-|Hin].
  - apply string_leb_refl.
  - apply StronglySorted_inv in Hs. destruct Hs as [_ Hf].
    rewrite Forall_forall in Hf. now apply Hf.
Qed.

Lemma sorted_head_none {V : Type} (l : list (row V)) :
  hd_error (order_by_day_desc l) = None <-> l = [].
Proof.
  split.
  - intros H. pose proof (order_by_day_desc_perm l) as Hp.
    destruct (order_by_day_desc l); [|discriminate].
    now apply Permutation_nil.
  - now intros ->.
Qed.

(** C5: with no weight entry the summary has latest_weight,
    latest_weight_day and delta_to_target null; run_7d_km is a number and is
    0 when no run falls in the window; with weight entries the latest weight
    and its day are those of the first entry in descending order of day, the
    most recent one, and delta_to_target is that weight minus the target. *)
Theorem summary_latest_weight (db : database) (e : env) (uid : Z) (u : user)
    (start7 : date) :
  valid_date (today e) = true ->
  user_by_id db uid = Some u ->
  date_sub (today e) 6 = Some start7 ->
  (forall nw nr,
      streak_count (weights db) uid (today e) nw ->
      streak_count (runs db) uid (today e) nr ->
      exists p, summary db e uid = Ok p) /\
  (forall p, summary db e uid = Ok p ->
      ((forall r, In r (weights db) -> user_id r <> uid) ->
       latest_weight p = None /\ latest_weight_day p = None /\
       delta_to_target p = None) /\
      (run_7d_rows db uid (isoformat start7) = [] -> run_7d_km p = 0%float) /\
      (forall w, hd_error (weights_list db uid None None) = Some w ->
         In w (weights db) /\ user_id w = uid /\
         (forall r, In r (weights db) -> user_id r = uid ->
                    String.leb (day r) (day w) = true) /\
         latest_weight p = Some (weight_kg w) /\
         latest_weight_day p = Some (day w) /\
         delta_to_target p =
           Some (PrimFloat.sub (weight_kg w) (u_target_weight u))) /\
      ((exists r, In r (weights db) /\ user_id r = uid) ->
       exists w, hd_error (weights_list db uid None None) = Some w)).
Proof.
  intros Hd Hu H7. split.
  - intros nw nr Hw Hr. eexists.
    apply (summary_ok db e uid u start7 nw nr Hu H7);
      now apply streak_of_count.
  - intros p Hp.
    destruct (summary_inv db e uid p Hp) as [u' [s7 [Hu' [H7' [Sw Sr]]]]].
    rewrite (summary_ok db e uid u' s7 _ _ Hu' H7' Sw Sr) in Hp.
    assert (u' = u) by congruence. assert (s7 = start7) by congruence.
    subst u' s7. cbv zeta in Hp. injection Hp as <-.
    cbn [latest_weight latest_weight_day delta_to_target run_7d_km].
    rewrite <- weights_list_all.
    split; [|split; [|split]].
    + intros Hnone.
      assert (filter (fun r => user_id r =? uid) (weights db) = []) as Hnil.
      { apply (proj1 (sorted_head_none _)).
        destruct (hd_error _) as [w|] eqn:Ew; [|reflexivity].
        apply sorted_head_is_latest in Ew. destruct Ew as [Hin _].
        apply filter_In in Hin. destruct Hin as [Hin Hid].
        apply Z.eqb_eq in Hid. now destruct (Hnone w Hin). }
      rewrite weights_list_all, Hnil. cbn. auto.
    + intros ->. reflexivity.
    + intros w Hw. rewrite Hw. cbn [option_map].
      rewrite weights_list_all in Hw.
      apply sorted_head_is_latest in Hw. destruct Hw as [Hin Hmax].
      apply filter_In in Hin. destruct Hin as [Hin Hid].
      apply Z.eqb_eq in Hid.
      repeat split; auto.
      intros r Hr Hru. apply Hmax, filter_In. split; [exact Hr|].
      now apply Z.eqb_eq.
    + intros [r [Hr Hru]]. rewrite weights_list_all.
      destruct (hd_error _) as [w|] eqn:Ew; [eauto|].
      apply sorted_head_none in Ew.
      assert (In r (filter (fun r => user_id r =? uid) (weights db))) as Hin
        by (apply filter_In; split; [exact Hr | now apply Z.eqb_eq]).
      rewrite Ew in Hin. destruct Hin.
Qed.

(** ** Users *)

Lemma new_rowid_above (seq : Z) (ids : list Z) (x : Z) :
  In x ids -> x < new_rowid seq ids.
Proof.
  unfold new_rowid. induction ids as [|y ids IH]; [easy|].
  cbn [fold_right]. intros [->|Hin]; [lia|]. specialize (IH Hin). lia.
Qed.

Lemma new_rowid_seq (seq : Z) (ids : list Z) : seq < new_rowid seq ids.
Proof.
  unfold new_rowid. induction ids as [|y ids IH]; cbn [fold_right]; lia.
Qed.

Lemma new_rowid_fresh (seq : Z) (ids : list Z) :
  ~ In (new_rowid seq ids) ids.
Proof. intros H. apply (new_rowid_above seq) in H. lia. Qed.

Lemma user_by_name_some (db : database) (name : string) (u : user) :
  user_by_name db name = Some u -> In u (users db) /\ u_username u = name.
Proof.
  unfold user_by_name. intros H. apply find_some in H.
  destruct H as [Hin Hn]. apply String.eqb_eq in Hn. now split.
Qed.

Lemma user_by_name_none (db : database) (name : string) :
  user_by_name db name = None -> ~ In name (map u_username (users db)).
Proof.
  unfold user_by_name. intros H Hin. apply in_map_iff in Hin.
  destruct Hin as [u [Hn Hin]].
  pose proof (find_none _ _ H u Hin) as Hf. cbn in Hf.
  rewrite Hn, String.eqb_refl in Hf. discriminate.
Qed.

Lemma find_app_none {A : Type} (f : A -> bool) (l : list A) (a : A) :
  find f l = None -> f a = true -> find f (l ++ [a]) = Some a.
Proof.
  induction l as [|x l IH]; cbn [find app]; intros Hn Ha.
  - now rewrite Ha.
  - destruct (f x); [discriminate | now apply IH].
Qed.

Lemma find_app_some {A : Type} (f : A -> bool) (l l' : list A) (x : A) :
  find f l = Some x -> find f (l ++ l') = Some x.
Proof.
  induction l as [|y l IH]; cbn [find app]; [discriminate|].
  destruct (f y); [trivial | exact IH].
Qed.

Section Users.
Context {P : Platform} {T : PyStr}.

(** The INSERT of [register]: refused when the name is taken, else the new
    row is appended with a fresh id and the defaults of the schema. *)
Lemma insert_user_taken (db : database) (e : env) (name h : string)
    (u : user) :
  user_by_name db name = Some u -> insert_user db e name h = None.
Proof. unfold insert_user. now intros ->. Qed.

Lemma insert_user_new (db : database) (e : env) (name h : string) :
  user_by_name db name = None ->
  let u := mkUser (new_rowid (seq_users db) (map u_id (users db))) name h
             (sql_now e) 80%float 10%float "08:00" "18:00" in
  let db' := mkDatabase (users db ++ [u]) (weights db) (runs db)
               (u_id u) (seq_weights db) (seq_runs db) in
  insert_user db e name h = Some db' /\
  user_by_name db' name = Some u.
Proof.
  intros Hn u db'. unfold insert_user. rewrite Hn. split; [reflexivity|].
  unfold user_by_name in *. cbn [users db'].
  apply find_app_none; [exact Hn|]. cbn. apply String.eqb_refl.
Qed.

Lemma register_ok (db : database) (e : env) (uf pf : option string) :
  db_ok db -> db_ok (fst (register db e uf pf)).
Proof.
  intros Hok. unfold register.
  destruct (String.eqb _ "" || String.eqb _ ""); [exact Hok|].
  unfold insert_user.
  destruct (user_by_name db _) eqn:Hn; [exact Hok|].
  destruct Hok as [Hi [Hu [Hw Hr]]]. unfold db_ok. cbn.
  rewrite !map_app. cbn.
  repeat split; auto.
  - apply NoDup_app; [exact Hi | repeat constructor; easy |].
    intros x Hx [<-|[]]. now apply new_rowid_fresh in Hx.
  - apply NoDup_app; [exact Hu | repeat constructor; easy |].
    intros x Hx [<-|[]]. now apply user_by_name_none in Hn.
Qed.

Lemma me_update_ok (db : database) (uid : Z) (data : profile_input) :
  db_ok db -> db_ok (fst (me_update db uid data)).
Proof.
  intros [Hi [Hu [Hw Hr]]]. unfold me_update, update_goals, db_ok. cbn.
  rewrite !map_map.
  rewrite (map_ext _ u_id) by (intros u; now destruct (u_id u =? uid)).
  rewrite (map_ext _ u_username) by (intros u; now destruct (u_id u =? uid)).
  auto.
Qed.
End Users.

(** ** Registration and login *)

Section Auth.
Context {P : Platform} {T : PyStr}.

(** The empty text is its own stripped lowercase form. *)
Lemma normalize_empty : str_lower (str_strip "") = ""%string.
Proof.
  rewrite str_strip_ascii by reflexivity. cbn.
  now rewrite str_lower_ascii.
Qed.

Lemma register_invalid (db : database) (e : env) (uf pf : option string) :
  str_lower (str_strip (str_or uf "")) = ""%string \/
  str_or pf "" = ""%string ->
  register db e uf pf =
    (db, Ok (ErrorJson "username_password_required", 400)).
Proof.
  intros H. unfold register.
  replace (String.eqb _ "" || String.eqb _ "") with true; [reflexivity|].
  symmetry. apply orb_true_iff.
  destruct H as [H|H]; [left|right]; now apply String.eqb_eq.
Qed.

Lemma register_valid (db : database) (e : env) (uf pf : option string) :
  str_lower (str_strip (str_or uf "")) <> ""%string ->
  str_or pf "" <> ""%string ->
  let username := str_lower (str_strip (str_or uf "")) in
  register db e uf pf =
    match insert_user db e username (_hash_password (str_or pf "")) with
    | None => (db, Ok (ErrorJson "username_taken", 409))
    | Some db' =>
        (db',
         row_ <- or_raise (user_by_name db' username) TypeError ;;
         Ok (TokenJson (create_token e (u_id row_) username) username, 200))
    end.
Proof.
  intros Hu Hp username. unfold register.
  apply String.eqb_neq in Hu, Hp. fold username in Hu.
  fold username. rewrite Hu, Hp. reflexivity.
Qed.

Lemma register_taken (db : database) (e : env) (uf pf : option string)
    (u0 : user) :
  str_lower (str_strip (str_or uf "")) <> ""%string ->
  str_or pf "" <> ""%string ->
  user_by_name db (str_lower (str_strip (str_or uf ""))) = Some u0 ->
  register db e uf pf = (db, Ok (ErrorJson "username_taken", 409)).
Proof.
  intros Hu Hp H0. rewrite register_valid by assumption.
  now rewrite (insert_user_taken db e _ _ u0 H0).
Qed.

Lemma register_fresh (db : database) (e : env) (uf pf : option string) :
  str_lower (str_strip (str_or uf "")) <> ""%string ->
  str_or pf "" <> ""%string ->
  user_by_name db (str_lower (str_strip (str_or uf ""))) = None ->
  let username := str_lower (str_strip (str_or uf "")) in
  let u := mkUser (new_rowid (seq_users db) (map u_id (users db))) username
             (_hash_password (str_or pf "")) (sql_now e)
             80%float 10%float "08:00" "18:00" in
  register db e uf pf =
    (mkDatabase (users db ++ [u]) (weights db) (runs db)
       (u_id u) (seq_weights db) (seq_runs db),
     Ok (TokenJson (create_token e (u_id u) username) username, 200)).
Proof.
  intros Hu Hp Hn username u. rewrite register_valid by assumption.
  destruct (insert_user_new db e username (_hash_password (str_or pf "")) Hn)
    as [Hins Hfind].
  cbv zeta in Hins, Hfind. fold username. rewrite Hins, Hfind. reflexivity.
Qed.

(** What [login] does once both fields are there. *)
Lemma login_valid (db : database) (e : env) (uf pf : option string) :
  str_lower (str_strip (str_or uf "")) <> ""%string ->
  str_or pf "" <> ""%string ->
  let username := str_lower (str_strip (str_or uf "")) in
  login db e uf pf =
    match user_by_name db username with
    | None => (ErrorJson "invalid_credentials", 401)
    | Some row_ =>
        if negb (_verify_password (str_or pf "") (u_password_hash row_))
        then (ErrorJson "invalid_credentials", 401)
        else (TokenJson (create_token e (u_id row_) username) username, 200)
    end.
Proof.
  intros Hu Hp username. unfold login. fold username.
  apply String.eqb_neq in Hu, Hp. fold username in Hu. now rewrite Hu, Hp.
Qed.

(** C6: register answers username_password_required when the username (as
    Python's strip and lower leave it) or the password is empty,
    username_taken when the username, stripped and lowercased, is already
    stored, and otherwise stores the user under that form with the default
    goals and answers with a signed token; registering again under any
    spelling with the same stripped lowercase form is answered
    username_taken. *)
Theorem register_outcomes (db : database) (e : env)
    (uf pf : option string) :
  let username := str_lower (str_strip (str_or uf "")) in
  let password := str_or pf "" in
  (username = ""%string \/ password = ""%string ->
   register db e uf pf =
     (db, Ok (ErrorJson "username_password_required", 400))) /\
  (str_or uf "" = ""%string \/ str_or pf "" = ""%string ->
   register db e uf pf =
     (db, Ok (ErrorJson "username_password_required", 400))) /\
  (username <> ""%string -> password <> ""%string ->
   forall u0, user_by_name db username = Some u0 ->
   register db e uf pf = (db, Ok (ErrorJson "username_taken", 409))) /\
  (username <> ""%string -> password <> ""%string ->
   user_by_name db username = None ->
   let u := mkUser (new_rowid (seq_users db) (map u_id (users db)))
              username (_hash_password password) (sql_now e)
              80%float 10%float "08:00" "18:00" in
   register db e uf pf =
     (mkDatabase (users db ++ [u]) (weights db) (runs db)
        (u_id u) (seq_weights db) (seq_runs db),
      Ok (TokenJson (jwt_encode
                       (mkPayload (u_id u) username (unix_time e)
                                  (unix_time e + 1209600))
                       SECRET_KEY "HS256")
                    username, 200))) /\
  (username <> ""%string -> password <> ""%string ->
   forall e2 uf2 pf2,
     str_lower (str_strip (str_or uf2 "")) = username ->
     str_or pf2 "" <> ""%string ->
     register (fst (register db e uf pf)) e2 uf2 pf2 =
       (fst (register db e uf pf), Ok (ErrorJson "username_taken", 409))).
Proof.
  intros username password.
  assert (username <> ""%string -> password <> ""%string ->
          forall u0, user_by_name db username = Some u0 ->
          register db e uf pf = (db, Ok (ErrorJson "username_taken", 409)))
    as Taken.
  { intros Hu Hp u0 H0. now apply (register_taken db e uf pf u0). }
  pose proof (register_fresh db e uf pf) as Fresh.
  cbv zeta in Fresh. fold username password in Fresh.
  split; [apply register_invalid|].
  split.
  { intros [H|H]; apply register_invalid; [left|right; exact H].
    rewrite H. apply normalize_empty. }
  split; [exact Taken|]. split; [exact Fresh|].
  intros Hu Hp e2 uf2 pf2 Hsame Hp2.
  assert (exists u1, user_by_name (fst (register db e uf pf)) username
                     = Some u1) as [u1 Hu1].
  { assert ((exists u0, user_by_name db username = Some u0) \/
            user_by_name db username = None) as [[u0 E]|E]
      by (destruct (user_by_name db username); eauto).
    - rewrite (Taken Hu Hp u0 E). cbn [fst]. eauto.
    - rewrite (Fresh Hu Hp E). cbn [fst].
      destruct (insert_user_new db e username (_hash_password password) E)
        as [_ Hfind].
      eauto. }
  rewrite register_valid by (rewrite ?Hsame; assumption).
  rewrite Hsame.
  now rewrite (insert_user_taken _ e2 username _ u1 Hu1).
Qed.
End Auth.

Section Login.
Context {P : Platform} {T : PyStr}.

Lemma verify_password_iff (password h : string) :
  _verify_password password h = true <-> _hash_password password = h.
Proof. unfold _verify_password. apply String.eqb_eq. Qed.

(** C7: for a username and a password that are not empty (the username as
    the handler reads it, stripped and lowercased), a login for an unknown
    username and a login with a wrong password get the same answer,
    invalid_credentials with status 401; any other login gets a token. *)
Theorem login_failures_identical (db : database) (e : env)
    (uf pf : option string) :
  let username := str_lower (str_strip (str_or uf "")) in
  let password := str_or pf "" in
  username <> ""%string -> password <> ""%string ->
  (user_by_name db username = None ->
   login db e uf pf = (ErrorJson "invalid_credentials", 401)) /\
  (forall u, user_by_name db username = Some u ->
     _verify_password password (u_password_hash u) = false ->
     login db e uf pf = (ErrorJson "invalid_credentials", 401)) /\
  (forall u, user_by_name db username = Some u ->
     _verify_password password (u_password_hash u) = true ->
     login db e uf pf =
       (TokenJson (create_token e (u_id u) username) username, 200)).
Proof.
  intros username password Hu Hp.
  pose proof (login_valid db e uf pf Hu Hp) as Hlogin.
  cbv zeta in Hlogin. fold username password in Hlogin.
  rewrite Hlogin. split; [now intros ->|].
  split; intros u -> Hv; now rewrite Hv.
Qed.
End Login.

(** C10: the hash of a password is a function of the password alone, the
    salt being fixed: a password verifies against its own hash, equal
    passwords have equal hashes, and so a login with the credentials just
    registered gets a token. *)
Theorem hash_password_roundtrip {P : Platform} {T : PyStr} :
  (forall p, _hash_password p =
             hex (pbkdf2_hmac "sha256" p "static_salt_change_me" 200000)) /\
  (forall p, _verify_password p (_hash_password p) = true) /\
  (forall p1 p2, p1 = p2 -> _hash_password p1 = _hash_password p2) /\
  (forall p1 p2, p1 = p2 -> _verify_password p1 (_hash_password p2) = true) /\
  (forall db e e2 uf pf,
      str_lower (str_strip (str_or uf "")) <> ""%string ->
      str_or pf "" <> ""%string ->
      user_by_name db (str_lower (str_strip (str_or uf ""))) = None ->
      exists token name,
        login (fst (register db e uf pf)) e2 uf pf =
          (TokenJson token name, 200)).
Proof.
  assert (forall p, _verify_password p (_hash_password p) = true) as Hrt.
  { intros p. unfold _verify_password. apply String.eqb_refl. }
  split; [reflexivity|]. split; [exact Hrt|].
  split; [now intros p1 p2 ->|]. split; [intros p1 p2 ->; apply Hrt|].
  intros db e e2 uf pf Hu Hp Hn.
  rewrite (register_fresh db e uf pf Hu Hp Hn). cbn [fst].
  destruct (insert_user_new db e (str_lower (str_strip (str_or uf "")))
              (_hash_password (str_or pf "")) Hn) as [_ Hfind].
  rewrite login_valid by assumption. cbv zeta.
  rewrite Hfind. cbn [u_password_hash]. rewrite Hrt. cbn [negb]. eauto.
Qed.

(** * Further properties of the handlers *)

(** ** What a write leaves alone *)

Section UpsertFrame.
Context {V : Type}.
Implicit Types (r : row V) (tbl : list (row V)).

Lemma on_day_false_other_user uid uid2 d r :
  uid2 <> uid -> on_day uid d r = true -> (user_id r =? uid2) = false.
Proof.
  intros Hne H. apply on_day_key in H. inversion H; subst.
  apply Z.eqb_neq. congruence.
Qed.

(** Rows of another user pass through an upsert one by one. *)
Lemma upsert_filter_other_user tbl rowid uid uid2 d (v : V) now
    (f : row V -> bool) :
  uid2 <> uid ->
  filter (fun r => (user_id r =? uid2) && f r) (upsert tbl rowid uid d v now) =
  filter (fun r => (user_id r =? uid2) && f r) tbl.
Proof.
  intros Hne. unfold upsert. destruct (has_entry tbl uid d).
  - induction tbl as [|x tbl IH]; [reflexivity|].
    cbn [map filter]. rewrite IH.
    destruct (on_day uid d x) eqn:E; [|reflexivity].
    cbn [user_id].
    now rewrite (on_day_false_other_user uid uid2 d x Hne E).
  - rewrite filter_app. cbn [filter user_id].
    replace (uid =? uid2) with false
      by (symmetry; apply Z.eqb_neq; congruence).
    cbn [andb]. apply app_nil_r.
Qed.

(** The days with an entry after an upsert: those before, and the one
    written. *)
Lemma has_entry_upsert tbl rowid uid d (v : V) now uid2 s :
  has_entry (upsert tbl rowid uid d v now) uid2 s =
  has_entry tbl uid2 s || ((uid2 =? uid) && String.eqb s d).
Proof.
  destruct ((uid2 =? uid) && String.eqb s d) eqn:Ek.
  - apply andb_true_iff in Ek. destruct Ek as [Eu Es].
    apply Z.eqb_eq in Eu. apply String.eqb_eq in Es. subst.
    rewrite orb_true_r. apply upsert_has.
  - rewrite orb_false_r.
    assert ((uid2, s) <> (uid, d)) as Hk.
    { intros E. inversion E; subst.
      now rewrite Z.eqb_refl, String.eqb_refl in Ek. }
    destruct (has_entry tbl uid2 s) eqn:E.
    + apply has_entry_true in E. destruct E as [r [Hin [Hu Hd]]].
      apply has_entry_true. exists r. split; [|now split].
      apply upsert_other; [congruence | exact Hin].
    + apply has_entry_false. intros r Hin [Hu Hd].
      apply (upsert_other tbl rowid uid d v now r) in Hin; [|congruence].
      now apply (proj1 (has_entry_false tbl uid2 s) E r Hin).
Qed.

Lemma streak_loop_ext tbl1 tbl2 uid fuel d s :
  (forall x, has_entry tbl1 uid x = has_entry tbl2 uid x) ->
  streak_loop tbl1 uid fuel d s = streak_loop tbl2 uid fuel d s.
Proof.
  intros Hsame. revert d s.
  induction fuel as [|fuel IH]; intros d s; [reflexivity|].
  simpl. rewrite Hsame.
  destruct (has_entry tbl2 uid (isoformat d)); [|reflexivity].
  destruct (prev_day d); [apply IH | reflexivity].
Qed.

Lemma select_range_upsert_other_user tbl rowid uid uid2 d (v : V) now
    start end_ :
  uid2 <> uid ->
  select_range (upsert tbl rowid uid d v now) uid2 start end_ =
  select_range tbl uid2 start end_.
Proof.
  intros Hne. rewrite !select_range_filter. f_equal.
  unfold in_range.
  rewrite (filter_ext _
    (fun r => (user_id r =? uid2) &&
      (match supplied start with
       | Some s => String.leb s (day r) | None => true end &&
       match supplied end_ with
       | Some s => String.leb (day r) s | None => true end)))
    by (intros r; now rewrite andb_assoc).
  rewrite upsert_filter_other_user by assumption.
  apply filter_ext. intros r. now rewrite andb_assoc.
Qed.

Lemma streak_of_upsert_other_user tbl rowid uid uid2 d (v : V) now t :
  uid2 <> uid ->
  streak_of (upsert tbl rowid uid d v now) uid2 t = streak_of tbl uid2 t.
Proof.
  intros Hne. unfold streak_of. apply streak_loop_ext. intros x.
  rewrite has_entry_upsert.
  replace (uid2 =? uid) with false by (symmetry; now apply Z.eqb_neq).
  now rewrite orb_false_r.
Qed.

Lemma filter_user_upsert_other tbl rowid uid uid2 d (v : V) now :
  uid2 <> uid ->
  filter (fun r => user_id r =? uid2) (upsert tbl rowid uid d v now) =
  filter (fun r => user_id r =? uid2) tbl.
Proof.
  intros Hne.
  rewrite !(filter_ext (fun r : row V => user_id r =? uid2)
              (fun r => (user_id r =? uid2) && true))
    by (intros r; now rewrite andb_true_r).
  now apply upsert_filter_other_user.
Qed.
End UpsertFrame.

(** What the summary reads of the database. *)
Lemma summary_ext (db1 db2 : database) (e : env) (uid : Z) :
  user_by_id db1 uid = user_by_id db2 uid ->
  filter (fun r => user_id r =? uid) (weights db1) =
    filter (fun r => user_id r =? uid) (weights db2) ->
  (forall s, run_7d_rows db1 uid s = run_7d_rows db2 uid s) ->
  streak_of (weights db1) uid (today e) =
    streak_of (weights db2) uid (today e) ->
  streak_of (runs db1) uid (today e) = streak_of (runs db2) uid (today e) ->
  summary db1 e uid = summary db2 e uid.
Proof.
  intros Hu Hw Hr Sw Sr. unfold summary, streak.
  rewrite Hu, Hw, Sw, Sr.
  destruct (user_by_id db2 uid); [|reflexivity]. cbn [or_raise bind].
  destruct (date_sub (today e) 6); [|reflexivity]. cbn [or_raise bind].
  now rewrite Hr.
Qed.

(** X2: A write of one user changes nothing another user can read: the lists,
    the summary and the profile of every other user are as before. *)
Theorem writes_isolated_between_users (db : database) (e : env)
    (uid uid2 : Z) (day_field : option string) :
  uid2 <> uid ->
  (forall w,
      let db' := fst (weights_add db e uid day_field w) in
      (forall start end_,
          weights_list db' uid2 start end_ = weights_list db uid2 start end_
          /\ runs_list db' uid2 start end_ = runs_list db uid2 start end_) /\
      (forall e2, summary db' e2 uid2 = summary db e2 uid2) /\
      me_get db' uid2 = me_get db uid2) /\
  (forall dist dur,
      let db' := fst (runs_add db e uid day_field dist dur) in
      (forall start end_,
          weights_list db' uid2 start end_ = weights_list db uid2 start end_
          /\ runs_list db' uid2 start end_ = runs_list db uid2 start end_) /\
      (forall e2, summary db' e2 uid2 = summary db e2 uid2) /\
      me_get db' uid2 = me_get db uid2).
Proof.
  intros Hne. split.
  - intros w db'. unfold db'. destruct (PrimFloat.is_nan w) eqn:N.
    { rewrite weights_add_nan by exact N. now repeat split. }
    rewrite weights_add_number by exact N. cbn [fst].
    split; [|split; [|reflexivity]].
    + intros start end_. unfold weights_list, runs_list. cbn [weights runs].
      split; [now apply select_range_upsert_other_user | reflexivity].
    + intros e2. apply summary_ext; cbn [weights runs users]; auto.
      * now apply filter_user_upsert_other.
      * now apply streak_of_upsert_other_user.
  - intros dist dur db'. unfold db'.
    destruct (PrimFloat.is_nan dist) eqn:N1;
      [rewrite runs_add_nan by (now left); now repeat split|].
    destruct (PrimFloat.is_nan dur) eqn:N2;
      [rewrite runs_add_nan by (now right); now repeat split|].
    rewrite runs_add_number by assumption. cbn [fst].
    split; [|split; [|reflexivity]].
    + intros start end_. unfold weights_list, runs_list. cbn [weights runs].
      split; [reflexivity | now apply select_range_upsert_other_user].
    + intros e2. apply summary_ext; cbn [weights runs users]; auto.
      * intros s. unfold run_7d_rows. cbn [runs]. f_equal.
        now apply upsert_filter_other_user.
      * now apply streak_of_upsert_other_user.
Qed.

(** ** What a write does to its own table *)

Section UpsertShape.
Context {V : Type}.
Implicit Types (r : row V) (tbl : list (row V)).



Lemma upsert_length tbl rowid uid d (v : V) now :
  List.length (upsert tbl rowid uid d v now) =
  (List.length tbl + if has_entry tbl uid d then 0 else 1)%nat.
Proof.
  unfold upsert. destruct (has_entry tbl uid d).
  - rewrite length_map. lia.
  - now rewrite length_app.
Qed.

(** The ids after an upsert: those before, and the one handed out when a
    row was added. *)
Lemma upsert_ids_in tbl rowid uid d (v : V) now x :
  In x (map id (upsert tbl rowid uid d v now)) ->
  In x (map id tbl) \/ x = rowid.
Proof.
  unfold upsert. destruct (has_entry tbl uid d).
  - rewrite map_map.
    rewrite (map_ext _ id) by (intros r; now destruct (on_day uid d r)).
    now left.
  - rewrite map_app, in_app_iff. cbn [map id In]. intuition.
Qed.

(** Ids stay distinct. *)
Lemma upsert_ids tbl rowid uid d (v : V) now :
  ~ In rowid (map id tbl) ->
  NoDup (map id tbl) -> NoDup (map id (upsert tbl rowid uid d v now)).
Proof.
  intros Hfresh Hnd. unfold upsert. destruct (has_entry tbl uid d).
  - rewrite map_map.
    rewrite (map_ext _ id) by (intros r; now destruct (on_day uid d r)).
    exact Hnd.
  - rewrite map_app. cbn [map id].
    apply NoDup_app; [exact Hnd | repeat constructor; easy |].
    intros x Hx [<-|[]]. now apply Hfresh.
Qed.

(** Writing the value that is there changes nothing. *)
Lemma upsert_same_value tbl rowid uid d (v : V) now :
  (forall r, In r tbl -> user_id r = uid -> day r = d -> val r = v) ->
  has_entry tbl uid d = true ->
  upsert tbl rowid uid d v now = tbl.
Proof.
  intros Hv E. unfold upsert. rewrite E.
  rewrite <- (map_id tbl) at 2. apply map_ext_in.
  intros r Hin. destruct (on_day uid d r) eqn:Er; [|reflexivity].
  apply on_day_key in Er. inversion Er as [[Hu Hd]].
  rewrite <- (Hv r Hin Hu Hd). now destruct r.
Qed.

Lemma upsert_idempotent tbl id1 id2 uid d (v : V) now1 now2 :
  upsert (upsert tbl id1 uid d v now1) id2 uid d v now2 =
  upsert tbl id1 uid d v now1.
Proof.
  apply upsert_same_value; [|apply upsert_has].
  intros r Hin Hu Hd. eapply upsert_val; eauto.
Qed.

(** The counter after a write is above every id of the table, so the next
    row id is one more than the counter. *)
Lemma new_rowid_after_upsert tbl seq uid d (v : V) now :
  let rowid := new_rowid seq (map id tbl) in
  new_rowid rowid (map id (upsert tbl rowid uid d v now)) = rowid + 1.
Proof.
  intros rowid.
  assert (forall x, In x (map id (upsert tbl rowid uid d v now)) ->
                    x <= rowid) as Hle.
  { intros x Hx. apply upsert_ids_in in Hx. destruct Hx as [Hx| ->]; [|lia].
    apply (new_rowid_above seq) in Hx. fold rowid in Hx. lia. }
  revert Hle. generalize (map id (upsert tbl rowid uid d v now)).
  intros ids Hle. unfold new_rowid.
  induction ids as [|y ids IH]; cbn [fold_right]; [lia|].
  assert (y <= rowid) by (apply Hle; now left).
  assert (1 + fold_right Z.max rowid ids = rowid + 1)
    by (apply IH; intros x Hx; apply Hle; now right).
  lia.
Qed.
End UpsertShape.

(** X3: A write of a number touches the entry of its (user, day) and nothing
    else: the users, the other table and their counters are as before, every
    row of another user or another day is kept as it is, and the table grows
    by one row when the day had no entry and by none when it had.  A write
    of NaN is refused and touches nothing. *)
Theorem write_touches_one_entry (db : database) (e : env) (uid : Z)
    (day_field : option string) :
  let d := str_or day_field (today_str e) in
  (forall w,
      PrimFloat.is_nan w = false ->
      let db' := fst (weights_add db e uid day_field w) in
      users db' = users db /\ runs db' = runs db /\
      seq_users db' = seq_users db /\ seq_runs db' = seq_runs db /\
      (forall r, (user_id r, day r) <> (uid, d) ->
                 (In r (weights db') <-> In r (weights db))) /\
      (forall uid2 s, (uid2, s) <> (uid, d) ->
         has_entry (weights db') uid2 s = has_entry (weights db) uid2 s) /\
      has_entry (weights db') uid d = true /\
      List.length (weights db') =
        (List.length (weights db)
         + if has_entry (weights db) uid d then 0 else 1)%nat) /\
  (forall dist dur,
      PrimFloat.is_nan dist = false -> PrimFloat.is_nan dur = false ->
      let db' := fst (runs_add db e uid day_field dist dur) in
      users db' = users db /\ weights db' = weights db /\
      seq_users db' = seq_users db /\ seq_weights db' = seq_weights db /\
      (forall r, (user_id r, day r) <> (uid, d) ->
                 (In r (runs db') <-> In r (runs db))) /\
      (forall uid2 s, (uid2, s) <> (uid, d) ->
         has_entry (runs db') uid2 s = has_entry (runs db) uid2 s) /\
      has_entry (runs db') uid d = true /\
      List.length (runs db') =
        (List.length (runs db)
         + if has_entry (runs db) uid d then 0 else 1)%nat) /\
  (forall w, PrimFloat.is_nan w = true ->
      weights_add db e uid day_field w = (db, Raise IntegrityError)) /\
  (forall dist dur,
      PrimFloat.is_nan dist = true \/ PrimFloat.is_nan dur = true ->
      runs_add db e uid day_field dist dur = (db, Raise IntegrityError)).
Proof.
  intros d.
  assert (forall (V : Type) (tbl : list (row V)) rowid (v : V) now uid2 s,
             (uid2, s) <> (uid, d) ->
             has_entry (upsert tbl rowid uid d v now) uid2 s =
             has_entry tbl uid2 s)
    as Hother.
  { intros V tbl rowid v now uid2 s Hk. rewrite has_entry_upsert.
    replace ((uid2 =? uid) && String.eqb s d) with false;
      [apply orb_false_r|].
    symmetry. apply andb_false_iff.
    destruct (Z.eqb_spec uid2 uid) as [->|]; [right|now left].
    apply String.eqb_neq. congruence. }
  split; [|split; [|split]].
  - intros w N db'. unfold db'. rewrite weights_add_number by exact N.
    cbn [fst users runs weights seq_users seq_runs].
    fold d. do 4 (split; [reflexivity|]).
    split; [intros r Hk; now apply upsert_other|].
    split; [intros uid2 s Hk; now apply Hother|].
    split; [apply upsert_has | apply upsert_length].
  - intros dist dur N1 N2 db'. unfold db'.
    rewrite runs_add_number by assumption.
    cbn [fst users runs weights seq_users seq_weights].
    fold d. do 4 (split; [reflexivity|]).
    split; [intros r Hk; now apply upsert_other|].
    split; [intros uid2 s Hk; now apply Hother|].
    split; [apply upsert_has | apply upsert_length].
  - intros w N. now apply weights_add_nan.
  - intros dist dur N. now apply runs_add_nan.
Qed.

(** X4: Repeating a write with the same value, whenever the two writes name
    the same day, leaves every row of every table exactly as the first write
    left it; what moves is the AUTOINCREMENT counter of the table written,
    by one, the row id the second INSERT was given and did not use. *)
Theorem repeated_write_keeps_rows (db : database) (e1 e2 : env) (uid : Z)
    (f1 f2 : option string) :
  str_or f1 (today_str e1) = str_or f2 (today_str e2) ->
  (forall w,
      PrimFloat.is_nan w = false ->
      let db1 := fst (weights_add db e1 uid f1 w) in
      let db2 := fst (weights_add db1 e2 uid f2 w) in
      users db2 = users db1 /\ weights db2 = weights db1 /\
      runs db2 = runs db1 /\
      seq_users db2 = seq_users db1 /\ seq_runs db2 = seq_runs db1 /\
      seq_weights db2 = seq_weights db1 + 1) /\
  (forall dist dur,
      PrimFloat.is_nan dist = false -> PrimFloat.is_nan dur = false ->
      let db1 := fst (runs_add db e1 uid f1 dist dur) in
      let db2 := fst (runs_add db1 e2 uid f2 dist dur) in
      users db2 = users db1 /\ weights db2 = weights db1 /\
      runs db2 = runs db1 /\
      seq_users db2 = seq_users db1 /\ seq_weights db2 = seq_weights db1 /\
      seq_runs db2 = seq_runs db1 + 1).
Proof.
  intros Hd. split.
  - intros w N db1 db2. unfold db2, db1.
    rewrite (weights_add_number db _ _ _ _ N). cbn [fst].
    rewrite weights_add_number by exact N.
    cbn [fst users weights runs seq_users seq_weights seq_runs].
    rewrite <- Hd. rewrite upsert_idempotent.
    repeat split. apply new_rowid_after_upsert.
  - intros dist dur N1 N2 db1 db2. unfold db2, db1.
    rewrite (runs_add_number db _ _ _ _ _ N1 N2). cbn [fst].
    rewrite runs_add_number by assumption.
    cbn [fst users weights runs seq_users seq_weights seq_runs].
    rewrite <- Hd. rewrite upsert_idempotent.
    repeat split. apply new_rowid_after_upsert.
Qed.


(** ** A weight logged without a day *)


Lemma str_or_supplied (o : option string) (dflt s : string) :
  supplied o = Some s -> str_or o dflt = s.
Proof.
  destruct o as [t|]; [|discriminate]. cbn.
  destruct (String.eqb t ""); [discriminate|]. now intros [= ->].
Qed.

Lemma date_sub_prev_valid_below (y d dk : date) (k : nat) :
  valid_date d = true -> prev_day d = Some y -> date_sub y k = Some dk ->
  valid_date dk = true /\ date_code dk < date_code d.
Proof.
  intros Hd Hp Hk.
  pose proof (prev_day_valid _ _ Hd Hp) as Hy.
  destruct (prev_day_code _ _ Hd Hp) as [Hlt _].
  split; [eapply date_sub_valid; eauto|].
  pose proof (date_sub_code _ _ _ Hy Hk). lia.
Qed.



(** ** A streak needs its entries *)

Lemma filter_length_lt {A : Type} (f g : A -> bool) (l : list A) (a : A) :
  (forall x, f x = true -> g x = true) ->
  In a l -> g a = true -> f a = false ->
  (List.length (filter f l) < List.length (filter g l))%nat.
Proof.
  intros Hfg Hin Hg Hf.
  assert (forall l', (List.length (filter f l')
                      <= List.length (filter g l'))%nat) as Hle.
  { induction l' as [|x l' IH]; [easy|]. cbn [filter].
    destruct (f x) eqn:Ef.
    - rewrite (Hfg x Ef). cbn. lia.
    - destruct (g x); cbn; lia. }
  induction l as [|x l IH]; [destruct Hin|].
  cbn [filter]. destruct Hin as [->|Hin].
  - rewrite Hf, Hg. cbn. specialize (Hle l). lia.
  - specialize (IH Hin). destruct (f x) eqn:Ef.
    + rewrite (Hfg x Ef). cbn. lia.
    + destruct (g x); cbn; lia.
Qed.

Lemma streak_count_bound {V : Type} (tbl : list (row V)) (uid : Z)
    (n : nat) (d : date) :
  valid_date d = true -> streak_count tbl uid d n ->
  (n <= List.length
          (filter (fun r => (user_id r =? uid)%Z
                            && String.leb (day r) (isoformat d)) tbl))%nat.
Proof.
  revert d. induction n as [|n IH]; intros d Hd Hc; [lia|].
  pose proof Hc as [Hall [dn [Hdn _]]].
  destruct (Hall 0%nat) as [d0 [Hd0 Hyes]]; [lia|].
  cbn in Hd0. injection Hd0 as <-.
  cbn in Hdn. destruct (prev_day d) as [d'|] eqn:Hp; [|discriminate].
  pose proof (prev_day_valid _ _ Hd Hp) as Hd'.
  destruct (prev_day_code _ _ Hd Hp) as [Hlt _].
  specialize (IH d' Hd' (streak_count_tail tbl uid d d' n Hp Hc)).
  apply has_entry_true in Hyes. destruct Hyes as [r0 [Hin [Hu Hday]]].
  enough (List.length
            (filter (fun r => (user_id r =? uid)%Z
                              && String.leb (day r) (isoformat d')) tbl)
          < List.length
              (filter (fun r => (user_id r =? uid)%Z
                                && String.leb (day r) (isoformat d)) tbl))%nat
    by lia.
  apply (filter_length_lt _ _ tbl r0); [|exact Hin| |].
  - intros x Hx. apply andb_true_iff in Hx. destruct Hx as [Hxu Hxd].
    rewrite Hxu. cbn [andb].
    apply (string_leb_trans _ (isoformat d')); [exact Hxd|].
    rewrite isoformat_leb, date_leb_code by assumption.
    apply Z.leb_le. lia.
  - rewrite Hu, Z.eqb_refl, Hday. apply string_leb_refl.
  - rewrite Hu, Z.eqb_refl, Hday. cbn [andb].
    rewrite isoformat_leb, date_leb_code by assumption.
    apply Z.leb_gt. lia.
Qed.

Lemma select_range_upto_length {V : Type} (tbl : list (row V)) (uid : Z)
    (d : date) :
  List.length (select_range tbl uid None (Some (isoformat d))) =
  List.length (filter (fun r => (user_id r =? uid)
                                && String.leb (day r) (isoformat d)) tbl).
Proof.
  destruct (select_range_spec tbl uid None (Some (isoformat d)))
    as [_ [Hperm _]].
  rewrite (Permutation_length Hperm). f_equal.
  apply filter_ext. intros r. unfold in_range.
  rewrite isoformat_supplied. cbn [supplied]. now rewrite andb_true_r.
Qed.

(** X9: A streak never exceeds the number of entries the user has up to today:
    weigh_streak is at most the length of GET /api/weights with end = today,
    and run_streak at most that of GET /api/runs. *)
Theorem streak_bounded_by_entries (db : database) (e : env) (uid : Z)
    (p : summary_json) :
  valid_date (today e) = true ->
  summary db e uid = Ok p ->
  (weigh_streak p
   <= List.length (weights_list db uid None (Some (today_str e))))%nat /\
  (run_streak p
   <= List.length (runs_list db uid None (Some (today_str e))))%nat.
Proof.
  intros Hd Hp.
  destruct (summary_inv db e uid p Hp) as [_ [_ [_ [_ [Sw Sr]]]]].
  apply streak_of_sound in Sw, Sr.
  unfold weights_list, runs_list, today_str.
  rewrite !select_range_upto_length.
  split; now apply streak_count_bound.
Qed.

(** ** How the summary fails *)

(** X10: GET /api/summary for an id without a user row raises TypeError; it
    raises OverflowError only for an id that has a user row; and it raises
    nothing but these two: the scan bound of the embedding is never
    reached. *)
Theorem summary_failures (db : database) (e : env) (uid : Z) :
  valid_date (today e) = true ->
  (user_by_id db uid = None -> summary db e uid = Raise TypeError) /\
  (summary db e uid = Raise OverflowError ->
   exists u, user_by_id db uid = Some u) /\
  (forall x, summary db e uid = Raise x ->
             x = TypeError \/ x = OverflowError).
Proof.
  intros Hd.
  assert (forall x, summary db e uid = Raise x ->
            (x = TypeError /\ user_by_id db uid = None) \/
            (x = OverflowError /\ user_by_id db uid <> None)) as Hcases.
  { intros x Hx. destruct (user_by_id db uid) as [u|] eqn:Hu.
    - right. split; [|discriminate].
      destruct (date_sub (today e) 6) as [s7|] eqn:H7.
      + destruct (summary_outcome db e uid u s7 Hd Hu H7) as [[p Hp]|Ho];
          congruence.
      + unfold summary in Hx. rewrite Hu, H7 in Hx. cbn in Hx. congruence.
    - left. unfold summary in Hx. rewrite Hu in Hx. cbn in Hx.
      split; congruence. }
  split; [|split].
  - intros Hu. unfold summary. now rewrite Hu.
  - intros Hx. destruct (Hcases _ Hx) as [[H _]|[_ H]]; [discriminate|].
    destruct (user_by_id db uid) as [u|]; [eauto|congruence].
  - intros x Hx. destruct (Hcases _ Hx) as [[H _]|[H _]]; auto.
Qed.

(** ** When a token is issued *)

Section Tokens.
Context {P : Platform} {T : PyStr}.

(** X12: POST /api/login issues a token only for a stored user whose stored
    hash is the hash of the password sent; the token is made for the id of
    that user, and the answer is 200 with the name under which the user is
    stored: the text sent, stripped and lowercased by Python. *)
Theorem login_token_needs_matching_hash (db : database) (e : env)
    (uf pf : option string) (t n : string) (c : Z) :
  login db e uf pf = (TokenJson t n, c) ->
  c = 200 /\
  n = str_lower (str_strip (str_or uf "")) /\ n <> ""%string /\
  str_or pf "" <> ""%string /\
  exists u, In u (users db) /\ u_username u = n /\
            u_password_hash u = _hash_password (str_or pf "") /\
            t = create_token e (u_id u) n.
Proof.
  unfold login.
  destruct (String.eqb (str_lower (str_strip (str_or uf ""))) "") eqn:Eu;
    [discriminate|].
  destruct (String.eqb (str_or pf "") "") eqn:Ep; [discriminate|].
  cbn [orb].
  destruct (user_by_name db _) as [u|] eqn:Hu; [|discriminate].
  destruct (_verify_password _ _) eqn:Hv; [|discriminate].
  cbn [negb]. intros [= <- <- <-].
  apply String.eqb_neq in Eu, Ep.
  apply user_by_name_some in Hu. destruct Hu as [Hin Hn].
  apply verify_password_iff in Hv.
  repeat split; auto. exists u. auto.
Qed.

(** X13: POST /api/register never raises; an error answer leaves the database
    as it was; a token is issued only together with a new user row, for a
    name no row had, with an id no row had and above the counter of the
    table, which it becomes, and the token is made for that id. *)
Theorem register_token_needs_new_user (db : database) (e : env)
    (uf pf : option string) :
  (exists r, snd (register db e uf pf) = Ok r) /\
  (forall err c, snd (register db e uf pf) = Ok (ErrorJson err, c) ->
     fst (register db e uf pf) = db /\
     (c = 400 /\ err = "username_password_required"%string \/
      c = 409 /\ err = "username_taken"%string)) /\
  (forall t n c, snd (register db e uf pf) = Ok (TokenJson t n, c) ->
     c = 200 /\ n = str_lower (str_strip (str_or uf "")) /\
     user_by_name db n = None /\
     exists u, fst (register db e uf pf)
                 = mkDatabase (users db ++ [u]) (weights db) (runs db)
                     (u_id u) (seq_weights db) (seq_runs db) /\
               u_username u = n /\
               u_password_hash u = _hash_password (str_or pf "") /\
               ~ In (u_id u) (map u_id (users db)) /\
               seq_users db < u_id u /\
               t = create_token e (u_id u) n).
Proof.
  destruct (string_dec (str_lower (str_strip (str_or uf ""))) "") as [Eu|Eu].
  { rewrite (register_invalid db e uf pf (or_introl Eu)). cbn [fst snd].
    split; [eauto|]. split; [|discriminate].
    intros err c [= <- <-]. auto. }
  destruct (string_dec (str_or pf "") "") as [Ep|Ep].
  { rewrite (register_invalid db e uf pf (or_intror Ep)). cbn [fst snd].
    split; [eauto|]. split; [|discriminate].
    intros err c [= <- <-]. auto. }
  destruct (user_by_name db (str_lower (str_strip (str_or uf ""))))
    as [u0|] eqn:Hn.
  { rewrite (register_taken db e uf pf u0 Eu Ep Hn). cbn [fst snd].
    split; [eauto|]. split; [|discriminate].
    intros err c [= <- <-]. auto. }
  rewrite (register_fresh db e uf pf Eu Ep Hn). cbn [fst snd].
  split; [eauto|]. split; [discriminate|].
  intros t n c [= <- <- <-].
  repeat split; auto.
  eexists. split; [reflexivity|]. cbn [u_username u_password_hash u_id].
  repeat split; [apply new_rowid_fresh | apply new_rowid_seq].
Qed.
End Tokens.

(** ** Profile updates and everything else *)

Lemma update_goals_by_name (db : database) (uid : Z) (tw dr : number)
    (wt rt : string) (name : string) :
  user_by_name (update_goals db uid tw dr wt rt) name =
  option_map (fun u => if u_id u =? uid
                       then mkUser (u_id u) (u_username u)
                              (u_password_hash u) (u_created_at u)
                              (num tw) (num dr) wt rt
                       else u)
             (user_by_name db name).
Proof.
  unfold user_by_name, update_goals. cbn [users].
  induction (users db) as [|x l IH]; [reflexivity|].
  cbn [map find].
  replace (String.eqb
             (u_username (if u_id x =? uid
                          then mkUser (u_id x) (u_username x)
                                 (u_password_hash x) (u_created_at x)
                                 (num tw) (num dr) wt rt
                          else x)) name)
    with (String.eqb (u_username x) name)
    by (now destruct (u_id x =? uid)).
  destruct (String.eqb (u_username x) name); [reflexivity | exact IH].
Qed.

Lemma update_goals_by_other_id (db : database) (uid uid2 : Z)
    (tw dr : number) (wt rt : string) :
  uid2 <> uid ->
  user_by_id (update_goals db uid tw dr wt rt) uid2 = user_by_id db uid2.
Proof.
  intros Hne. unfold user_by_id, update_goals. cbn [users].
  induction (users db) as [|x l IH]; [reflexivity|].
  cbn [map find]. destruct (u_id x =? uid) eqn:E.
  - cbn [u_id]. apply Z.eqb_eq in E.
    replace (u_id x =? uid2) with false
      by (symmetry; apply Z.eqb_neq; congruence).
    exact IH.
  - destruct (u_id x =? uid2); [reflexivity | exact IH].
Qed.

Lemma update_goals_missing (db : database) (uid : Z) (tw dr : number)
    (wt rt : string) :
  user_by_id db uid = None -> update_goals db uid tw dr wt rt = db.
Proof.
  intros Hn. unfold update_goals. destruct db as [us ws rs su sw sr].
  cbn [users weights runs seq_users seq_weights seq_runs]. f_equal.
  unfold user_by_id in Hn. cbn [users] in Hn.
  rewrite <- (map_id us) at 2. apply map_ext_in. intros u Hin.
  now rewrite (find_none _ _ Hn u Hin).
Qed.

(** X15: PUT /api/me changes the four goal fields of one user and nothing else:
    the entries, the names, ids, password hashes and creation times of all
    users and the profiles of the other users stay, so every login is
    answered as before, and so is the summary of every other user. *)
Theorem me_update_changes_goals_only {P : Platform} {T : PyStr}
    (db : database) (uid : Z) (data : profile_input) :
  let db' := fst (me_update db uid data) in
  weights db' = weights db /\ runs db' = runs db /\
  map (fun u => (u_id u, u_username u, u_password_hash u, u_created_at u))
      (users db') =
  map (fun u => (u_id u, u_username u, u_password_hash u, u_created_at u))
      (users db) /\
  (forall uid2, uid2 <> uid -> me_get db' uid2 = me_get db uid2) /\
  (forall e uf pf, login db' e uf pf = login db e uf pf) /\
  (forall e uid2, uid2 <> uid -> summary db' e uid2 = summary db e uid2).
Proof.
  intros db'. unfold db', me_update. cbn [fst].
  set (tw := opt_default (in_target_weight data) _).
  set (dr := opt_default (in_daily_run_km data) _).
  set (wt := opt_default (in_weigh_time data) "08:00"%string).
  set (rt := opt_default (in_run_time data) "18:00"%string).
  split; [reflexivity|]. split; [reflexivity|].
  split.
  { unfold update_goals. cbn [users]. rewrite map_map. apply map_ext.
    intros u. now destruct (u_id u =? uid). }
  split.
  { intros uid2 Hne. unfold me_get.
    now rewrite update_goals_by_other_id. }
  split.
  { intros e uf pf. unfold login.
    destruct (String.eqb _ "" || String.eqb _ ""); [reflexivity|].
    rewrite update_goals_by_name.
    destruct (user_by_name db _) as [u|]; [|reflexivity].
    cbn [option_map]. now destruct (u_id u =? uid). }
  intros e uid2 Hne. apply summary_ext; try reflexivity.
  now apply update_goals_by_other_id.
Qed.

(** X16: PUT and GET /api/me for an id without a user row raise AttributeError,
    and the PUT leaves the database exactly as it was. *)
Theorem me_without_user_row (db : database) (uid : Z)
    (data : profile_input) :
  user_by_id db uid = None ->
  me_get db uid = Raise AttributeError /\
  me_update db uid data = (db, Raise AttributeError).
Proof.
  intros Hn. split; [unfold me_get; now rewrite Hn|].
  unfold me_update. rewrite (update_goals_missing db uid _ _ _ _ Hn).
  now rewrite Hn.
Qed.

(** ** Usernames as stored *)

Lemma lower_char_idem (c : ascii) : lower_char (lower_char c) = lower_char c.
Proof. destruct c as [[] [] [] [] [] [] [] []]; reflexivity. Qed.

Lemma isspace_lower_char (c : ascii) : isspace (lower_char c) = isspace c.
Proof. destruct c as [[] [] [] [] [] [] [] []]; reflexivity. Qed.

Lemma lower_idem (s : string) : lower (lower s) = lower s.
Proof.
  induction s as [|c s IH]; [reflexivity|].
  cbn [lower]. now rewrite lower_char_idem, IH.
Qed.

Lemma lower_empty (s : string) : lower s = ""%string <-> s = ""%string.
Proof. destruct s; cbn; split; congruence. Qed.

Lemma lstrip_lower (s : string) : lstrip (lower s) = lower (lstrip s).
Proof.
  induction s as [|c s IH]; [reflexivity|].
  cbn [lower lstrip]. rewrite isspace_lower_char.
  destruct (isspace c); [exact IH | reflexivity].
Qed.

Lemma rstrip_lower (s : string) : rstrip (lower s) = lower (rstrip s).
Proof.
  induction s as [|c s IH]; [reflexivity|].
  cbn [lower rstrip]. rewrite IH, isspace_lower_char.
  destruct (rstrip s) as [|x t]; cbn [lower]; [|reflexivity].
  now destruct (isspace c).
Qed.

Lemma strip_lower (s : string) : strip (lower s) = lower (strip s).
Proof. unfold strip. now rewrite lstrip_lower, rstrip_lower. Qed.

Lemma lstrip_head (s : string) :
  lstrip s = ""%string \/
  exists c t, lstrip s = String c t /\ isspace c = false.
Proof.
  induction s as [|c s IH]; [now left|].
  cbn [lstrip]. destruct (isspace c) eqn:E; [exact IH|].
  right. eauto.
Qed.

Lemma rstrip_idem (s : string) : rstrip (rstrip s) = rstrip s.
Proof.
  induction s as [|c s IH]; [reflexivity|].
  cbn [rstrip]. destruct (rstrip s) as [|x t] eqn:E.
  - destruct (isspace c) eqn:Ec; [reflexivity|].
    cbn [rstrip]. now rewrite Ec.
  - cbn [rstrip]. cbn [rstrip] in IH. now rewrite IH.
Qed.

Lemma rstrip_head (c : ascii) (t : string) :
  isspace c = false -> exists t', rstrip (String c t) = String c t'.
Proof.
  intros Ec. cbn [rstrip]. destruct (rstrip t); [rewrite Ec|]; eauto.
Qed.

Lemma strip_idem (s : string) : strip (strip s) = strip s.
Proof.
  unfold strip.
  assert (lstrip (rstrip (lstrip s)) = rstrip (lstrip s)) as ->.
  { destruct (lstrip_head s) as [->|[c [t [-> Ec]]]]; [reflexivity|].
    destruct (rstrip_head c t Ec) as [t' ->]. cbn [lstrip]. now rewrite Ec. }
  apply rstrip_idem.
Qed.

(** Stripping and lowercasing twice is stripping and lowercasing once. *)
Lemma normalize_idem (s : string) :
  lower (strip (lower (strip s))) = lower (strip s).
Proof. now rewrite strip_lower, lower_idem, strip_idem. Qed.

Lemma str_or_some_nonempty (s dflt : string) :
  s <> ""%string -> str_or (Some s) dflt = s.
Proof. intros Hs. cbn. apply String.eqb_neq in Hs. now rewrite Hs. Qed.

Lemma is_ascii_lstrip (s : string) :
  is_ascii s = true -> is_ascii (lstrip s) = true.
Proof.
  induction s as [|c s IH]; [reflexivity|].
  intros H. cbn [lstrip]. destruct (isspace c); [|exact H].
  cbn [is_ascii] in H. apply andb_prop in H. now apply IH.
Qed.

Lemma is_ascii_rstrip (s : string) :
  is_ascii s = true -> is_ascii (rstrip s) = true.
Proof.
  induction s as [|c s IH]; [reflexivity|].
  cbn [is_ascii]. intros H. apply andb_prop in H. destruct H as [Hc Hs].
  cbn [rstrip]. specialize (IH Hs). destruct (rstrip s) as [|x t].
  - destruct (isspace c); [reflexivity|]. cbn [is_ascii].
    now rewrite Hc.
  - cbn [is_ascii] in *. now rewrite Hc, IH.
Qed.

Lemma is_ascii_strip (s : string) :
  is_ascii s = true -> is_ascii (strip s) = true.
Proof. intros H. unfold strip. now apply is_ascii_rstrip, is_ascii_lstrip. Qed.

Lemma lower_char_ascii (c : ascii) :
  (N_of_ascii c <? 128)%N = true ->
  (N_of_ascii (lower_char c) <? 128)%N = true.
Proof. destruct c as [[] [] [] [] [] [] [] []]; cbn; congruence. Qed.

Lemma is_ascii_lower (s : string) :
  is_ascii s = true -> is_ascii (lower s) = true.
Proof.
  induction s as [|c s IH]; [reflexivity|].
  cbn [is_ascii lower]. intros H. apply andb_prop in H.
  destruct H as [Hc Hs]. now rewrite (lower_char_ascii c Hc), IH.
Qed.

(** On ASCII text Python's two methods are [strip] and [lower]. *)
Lemma normalize_ascii {T : PyStr} (s : string) :
  is_ascii s = true -> str_lower (str_strip s) = lower (strip s).
Proof.
  intros H. rewrite (str_strip_ascii s H).
  apply str_lower_ascii. now apply is_ascii_strip.
Qed.

(** X14: A user who has just registered can log in with the password under any
    spelling of the name that Python strips and lowercases to the same text;
    when the name sent was ASCII text, the stored name is its stripped
    lowercase form and logs in as it is; the token is made for the id of
    the new row. *)
Theorem login_after_register_any_spelling {P : Platform} {T : PyStr}
    (db : database) (e : env) (uf pf : option string) :
  let name := str_lower (str_strip (str_or uf "")) in
  name <> ""%string -> str_or pf "" <> ""%string ->
  user_by_name db name = None ->
  let db' := fst (register db e uf pf) in
  let uid := new_rowid (seq_users db) (map u_id (users db)) in
  snd (register db e uf pf) =
    Ok (TokenJson (create_token e uid name) name, 200) /\
  (forall e2 uf2,
      str_lower (str_strip (str_or uf2 "")) = name ->
      login db' e2 uf2 pf =
        (TokenJson (create_token e2 uid name) name, 200)) /\
  (is_ascii (str_or uf "") = true ->
   name = lower (strip (str_or uf "")) /\
   forall e2,
     login db' e2 (Some name) pf =
       (TokenJson (create_token e2 uid name) name, 200)).
Proof.
  intros name Hu Hp Hn db' uid.
  pose proof (register_fresh db e uf pf Hu Hp Hn) as Hreg.
  cbv zeta in Hreg. fold name in Hreg.
  assert (forall e2 uf2,
             str_lower (str_strip (str_or uf2 "")) = name ->
             login db' e2 uf2 pf =
               (TokenJson (create_token e2 uid name) name, 200)) as Hlogin.
  { intros e2 uf2 Hsame. unfold db'. rewrite Hreg. cbn [fst].
    rewrite login_valid by (rewrite ?Hsame; assumption). cbv zeta.
    rewrite Hsame.
    destruct (insert_user_new db e name (_hash_password (str_or pf "")) Hn)
      as [_ Hfind].
    cbv zeta in Hfind. rewrite Hfind. cbn [u_password_hash u_id].
    unfold _verify_password. now rewrite String.eqb_refl. }
  split; [now rewrite Hreg|]. split; [exact Hlogin|].
  intros Hascii.
  assert (name = lower (strip (str_or uf ""))) as Hname
    by (now apply normalize_ascii).
  split; [exact Hname|].
  intros e2. apply Hlogin.
  rewrite (str_or_some_nonempty name "" Hu).
  rewrite normalize_ascii
    by (rewrite Hname; now apply is_ascii_lower, is_ascii_strip).
  rewrite Hname. apply normalize_idem.
Qed.

(** ** An invariant of every history *)

Section Invariant.
Context {P : Platform} {T : PyStr}.

Lemma register_cases (db : database) (e : env) (uf pf : option string) :
  fst (register db e uf pf) = db \/
  (str_lower (str_strip (str_or uf "")) <> ""%string /\
   str_or pf "" <> ""%string /\
   let u := mkUser (new_rowid (seq_users db) (map u_id (users db)))
              (str_lower (str_strip (str_or uf "")))
              (_hash_password (str_or pf "")) (sql_now e)
              80%float 10%float "08:00" "18:00" in
   fst (register db e uf pf) =
     mkDatabase (users db ++ [u]) (weights db) (runs db)
       (u_id u) (seq_weights db) (seq_runs db)).
Proof.
  destruct (string_dec (str_lower (str_strip (str_or uf ""))) "") as [Eu|Eu];
    [left; now rewrite (register_invalid db e uf pf (or_introl Eu))|].
  destruct (string_dec (str_or pf "") "") as [Ep|Ep];
    [left; now rewrite (register_invalid db e uf pf (or_intror Ep))|].
  destruct (user_by_name db (str_lower (str_strip (str_or uf ""))))
    as [u0|] eqn:Hn;
    [left; now rewrite (register_taken db e uf pf u0 Eu Ep Hn)|].
  right. rewrite (register_fresh db e uf pf Eu Ep Hn). auto.
Qed.

(** Ids between 1 and the counter stay so when the counter moves to a new
    row id, with or without a row of that id. *)
Lemma ids_within_new_rowid (seq : Z) (ids ids' : list Z) :
  0 <= seq ->
  Forall (fun x => 1 <= x <= seq) ids ->
  (forall x, In x ids' -> In x ids \/ x = new_rowid seq ids) ->
  0 <= new_rowid seq ids /\
  Forall (fun x => 1 <= x <= new_rowid seq ids) ids'.
Proof.
  intros Hseq Hids Hin. pose proof (new_rowid_seq seq ids) as Hlt.
  split; [lia|]. apply Forall_forall. intros x Hx.
  destruct (Hin x Hx) as [Hold| ->]; [|lia].
  rewrite Forall_forall in Hids. specialize (Hids x Hold). lia.
Qed.

Lemma apply_write_wf (db : database) (w : write) :
  db_wf db -> db_wf (apply_write db w).
Proof.
  intros Hwf. pose proof Hwf as [Hok [Hwi [Hri [Hus [Hseq [Hu [Hw Hr]]]]]]].
  destruct Hseq as [Hsu [Hsw Hsr]].
  destruct w as [e uf pf|uid data|e uid df w|e uid df dist dur];
    cbn [apply_write].
  - pose proof (register_ok db e uf pf Hok) as Hok'.
    destruct (register_cases db e uf pf) as [->|[Eu [Ep Hreg]]];
      [exact Hwf|].
    cbv zeta in Hreg. rewrite Hreg in Hok' |- *.
    split; [exact Hok'|].
    cbn [users weights runs seq_users seq_weights seq_runs u_id].
    split; [exact Hwi|]. split; [exact Hri|].
    destruct (ids_within_new_rowid (seq_users db) (map u_id (users db))
                (map u_id (users db) ++
                 [new_rowid (seq_users db) (map u_id (users db))])
                Hsu Hu) as [Hsu' Hu'].
    { intros x Hx. apply in_app_or in Hx.
      destruct Hx as [Hx|[<-|[]]]; auto. }
    split.
    { apply Forall_app. split; [exact Hus|]. constructor; [|constructor].
      cbn [u_username u_password_hash]. split; [exact Eu|]. eauto. }
    split; [auto|].
    rewrite map_app. cbn [map u_id]. auto.
  - split; [now apply me_update_ok|].
    unfold me_update, update_goals.
    cbn [fst weights runs users seq_users seq_weights seq_runs].
    split; [exact Hwi|]. split; [exact Hri|].
    split.
    { apply Forall_map. eapply Forall_impl; [|exact Hus].
      intros u Hu0. now destruct (u_id u =? uid). }
    split; [auto|].
    rewrite map_map.
    rewrite (map_ext _ u_id) by (intros u; now destruct (u_id u =? uid)).
    auto.
  - destruct (PrimFloat.is_nan w) eqn:N;
      [now rewrite weights_add_nan by exact N|].
    pose proof (weights_add_ok db e uid df w Hok) as Hok'.
    rewrite weights_add_number in Hok' |- * by exact N. cbn [fst] in *.
    split; [exact Hok'|].
    cbn [users weights runs seq_users seq_weights seq_runs].
    destruct (ids_within_new_rowid (seq_weights db) (map id (weights db))
                (map id (upsert (weights db)
                           (new_rowid (seq_weights db) (map id (weights db)))
                           uid (str_or df (today_str e)) w (sql_now e)))
                Hsw Hw) as [Hsw' Hw'];
      [intros x; apply upsert_ids_in|].
    split; [now apply upsert_ids; [apply new_rowid_fresh|]|].
    auto 10.
  - destruct (PrimFloat.is_nan dist) eqn:N1;
      [now rewrite runs_add_nan by (now left)|].
    destruct (PrimFloat.is_nan dur) eqn:N2;
      [now rewrite runs_add_nan by (now right)|].
    pose proof (runs_add_ok db e uid df dist dur Hok) as Hok'.
    rewrite runs_add_number in Hok' |- * by assumption. cbn [fst] in *.
    split; [exact Hok'|].
    cbn [users weights runs seq_users seq_weights seq_runs].
    destruct (ids_within_new_rowid (seq_runs db) (map id (runs db))
                (map id (upsert (runs db)
                           (new_rowid (seq_runs db) (map id (runs db)))
                           uid (str_or df (today_str e)) (mkRun dist dur)
                           (sql_now e)))
                Hsr Hr) as [Hsr' Hr'];
      [intros x; apply upsert_ids_in|].
    split; [exact Hwi|].
    split; [now apply upsert_ids; [apply new_rowid_fresh|]|].
    auto 10.
Qed.

(** X17: Whatever requests were served since the schema was created, in
    whatever order: no two users share an id or a name, no user has two
    entries of one kind on one day, the row ids of each table are distinct
    and lie between 1 and the table's AUTOINCREMENT counter, and every
    stored name is non-empty and the stripped lowercase form of some text,
    with the hash of a non-empty password beside it. *)
Theorem replay_keeps_schema (ws : list write) : db_wf (replay ws).
Proof.
  unfold replay.
  assert (db_wf empty_db) as H0.
  { split; [apply empty_db_ok|]. cbn. repeat split; try constructor; lia. }
  revert H0. generalize empty_db.
  induction ws as [|w ws IH]; intros db Hdb; [exact Hdb|].
  cbn [fold_left]. apply IH. now apply apply_write_wf.
Qed.
End Invariant.

(** ** Edges of the list queries *)

Section ListEdges.
Context {V : Type}.
Implicit Types (r : row V) (tbl : list (row V)).

Lemma string_ltb_of_leb_neq (s t : string) :
  String.leb s t = true -> s <> t -> String.ltb s t = true.
Proof.
  unfold String.leb, String.ltb. intros Hle Hne.
  destruct (String.compare s t) eqn:E; [|reflexivity|discriminate].
  apply String.compare_eq_iff in E. contradiction.
Qed.

Lemma select_range_nodup tbl uid start end_ :
  unique_days tbl -> NoDup (select_range tbl uid start end_).
Proof.
  intros Hu. destruct (select_range_spec tbl uid start end_)
    as [_ [Hperm _]].
  apply (Permutation_NoDup (Permutation_sym Hperm)).
  apply NoDup_filter. eapply NoDup_map_inv. exact Hu.
Qed.

Lemma select_range_inverted tbl uid start end_ s t :
  supplied start = Some s -> supplied end_ = Some t ->
  String.ltb t s = true -> select_range tbl uid start end_ = [].
Proof.
  intros Hs Ht Hlt.
  destruct (select_range_spec tbl uid start end_) as [_ [_ Hiff]].
  destruct (select_range tbl uid start end_) as [|r l]; [reflexivity|].
  exfalso. destruct (proj1 (Hiff r) (or_introl eq_refl))
    as [_ [_ [Hge Hle]]].
  pose proof (string_leb_trans _ _ _ (Hge s Hs) (Hle t Ht)) as Hst.
  rewrite string_leb_ltb, Hlt in Hst. discriminate.
Qed.

Lemma select_range_strict tbl uid start end_ :
  unique_days tbl ->
  StronglySorted (fun a b => String.ltb (day b) (day a) = true)
                 (select_range tbl uid start end_).
Proof.
  intros Hu.
  destruct (select_range_spec tbl uid start end_) as [Hs [_ Hiff]].
  pose proof (select_range_nodup tbl uid start end_ Hu) as Hnd.
  assert (forall r, In r (select_range tbl uid start end_) ->
                    In r tbl /\ user_id r = uid) as Hin
    by (intros r Hr; apply Hiff in Hr; tauto).
  clear Hiff. revert Hnd Hin.
  generalize dependent (select_range tbl uid start end_).
  intros l Hs. induction Hs as [|x l Hs IH Hx]; intros Hnd Hin;
    [constructor|].
  inversion Hnd as [|? ? Hxl Hndl]; subst.
  constructor; [apply IH; auto; intros r Hr; apply Hin; now right|].
  rewrite Forall_forall in *. intros y Hy.
  apply string_ltb_of_leb_neq; [now apply Hx|].
  intros E. apply Hxl.
  destruct (Hin x (or_introl eq_refl)) as [Hxt Hxu].
  destruct (Hin y (or_intror Hy)) as [Hyt Hyu].
  rewrite <- (unique_days_no_tie tbl y x Hu Hyt Hxt) by congruence.
  exact Hy.
Qed.

Lemma select_range_one_day tbl uid d :
  unique_days tbl -> d <> ""%string ->
  (List.length (select_range tbl uid (Some d) (Some d)) <= 1)%nat /\
  forall r, In r (select_range tbl uid (Some d) (Some d)) -> day r = d.
Proof.
  intros Hu Hd.
  assert (supplied (Some d) = Some d) as Hsup.
  { cbn. apply String.eqb_neq in Hd. now rewrite Hd. }
  destruct (select_range_spec tbl uid (Some d) (Some d)) as [_ [_ Hiff]].
  pose proof (select_range_nodup tbl uid (Some d) (Some d) Hu) as Hnd.
  assert (forall r, In r (select_range tbl uid (Some d) (Some d)) ->
                    In r tbl /\ user_id r = uid /\ day r = d) as Hin.
  { intros r Hr. apply Hiff in Hr. destruct Hr as [Ht [Hru [Hge Hle]]].
    repeat split; auto.
    apply String.leb_antisym; [now apply Hle | now apply Hge]. }
  split; [|intros r Hr; now apply Hin].
  destruct (select_range tbl uid (Some d) (Some d)) as [|a [|b l]];
    cbn; try lia.
  exfalso. inversion Hnd as [|? ? Hnot _]; subst. apply Hnot.
  destruct (Hin a (or_introl eq_refl)) as [Hat [Hau Had]].
  destruct (Hin b (or_intror (or_introl eq_refl))) as [Hbt [Hbu Hbd]].
  left. apply (unique_days_no_tie tbl b a Hu); congruence.
Qed.
End ListEdges.

(** X11: The list queries at their edges, for weights and runs alike: with both
    bounds supplied and [end] before [start] the answer is empty; under the
    UNIQUE(user_id, day) constraint the answer has no two rows of one day,
    so its days are strictly descending, and a query with [start] = [end]
    returns at most one row, dated that day. *)
Theorem list_query_edges (db : database) (uid : Z) :
  (forall start end_ s t,
      supplied start = Some s -> supplied end_ = Some t ->
      String.ltb t s = true ->
      weights_list db uid start end_ = [] /\
      runs_list db uid start end_ = []) /\
  (db_ok db ->
   forall start end_,
     StronglySorted (fun a b => String.ltb (day b) (day a) = true)
                    (weights_list db uid start end_) /\
     StronglySorted (fun a b => String.ltb (day b) (day a) = true)
                    (runs_list db uid start end_) /\
     NoDup (map day (weights_list db uid start end_)) /\
     NoDup (map day (runs_list db uid start end_))) /\
  (db_ok db ->
   forall d, d <> ""%string ->
     (List.length (weights_list db uid (Some d) (Some d)) <= 1)%nat /\
     (List.length (runs_list db uid (Some d) (Some d)) <= 1)%nat /\
     (forall r, In r (weights_list db uid (Some d) (Some d)) -> day r = d) /\
     (forall r, In r (runs_list db uid (Some d) (Some d)) -> day r = d)).
Proof.
  assert (forall (V : Type) (l : list (row V)),
             StronglySorted (fun a b => String.ltb (day b) (day a) = true) l
             -> NoDup (map day l)) as Hdays.
  { intros V l Hs. induction Hs as [|x l Hs IH Hx]; cbn; constructor; auto.
    intros Hin. apply in_map_iff in Hin. destruct Hin as [y [Hy Hyl]].
    rewrite Forall_forall in Hx. specialize (Hx y Hyl).
    rewrite Hy in Hx. unfold String.ltb in Hx.
    now rewrite string_compare_refl in Hx. }
  split; [|split].
  - intros start end_ s t Hs Ht Hlt. unfold weights_list, runs_list.
    split; eapply select_range_inverted; eauto.
  - intros [_ [_ [Hw Hr]]] start end_. unfold weights_list, runs_list.
    pose proof (select_range_strict (weights db) uid start end_ Hw).
    pose proof (select_range_strict (runs db) uid start end_ Hr).
    auto.
  - intros [_ [_ [Hw Hr]]] d Hd. unfold weights_list, runs_list.
    destruct (select_range_one_day (weights db) uid d Hw Hd).
    destruct (select_range_one_day (runs db) uid d Hr Hd).
    auto.
Qed.

(** ** The bearer gate *)

Lemma startswith_spec (s p : string) :
  startswith s p = true <-> exists t, s = (p ++ t)%string.
Proof.
  revert s. induction p as [|c p IH]; intros s.
  - split; [intros _; now exists s | now destruct s].
  - destruct s as [|d s]; cbn [startswith].
    + split; [discriminate | intros [t Ht]; discriminate].
    + rewrite andb_true_iff, Ascii.eqb_eq, IH. cbn [append]. split.
      * intros [-> [t ->]]. now exists t.
      * intros [t Ht]. injection Ht as -> ->. split; [reflexivity|eauto].
Qed.

Lemma split1_bearer (t : string) :
  split1 " " ("Bearer " ++ t) = ["Bearer"%string; t].
Proof. reflexivity. Qed.

Section BearerGate.
Context {P : Platform} {D : Verifier} {A : Type}.

(** X18: [auth_required]: without an Authorization header that starts with
    "Bearer " (in this spelling) the answer is missing_token and the handler
    does not run; otherwise everything after that prefix, further blanks
    included, goes to the verifier: a refusal is answered invalid_token, and
    only a verified token runs the handler, as the subject of the token.
    The index into the split never fails. *)
Theorem bearer_gate (fn : Z -> string -> A) (e : env) (req : request) :
  ((forall t, h_authorization req <> Some ("Bearer " ++ t)%string) ->
   auth_required fn e req = Denied (ErrorJson "missing_token") 401) /\
  (forall t, h_authorization req = Some ("Bearer " ++ t)%string ->
     auth_required fn e req =
       match jwt_decode t SECRET_KEY ["HS256"%string] (unix_time e) with
       | None => Denied (ErrorJson "invalid_token") 401
       | Some payload => Granted (fn (sub payload) (username payload))
       end) /\
  auth_required fn e req <> IndexError /\
  (forall a, auth_required fn e req = Granted a ->
     exists t payload,
       h_authorization req = Some ("Bearer " ++ t)%string /\
       jwt_decode t SECRET_KEY ["HS256"%string] (unix_time e)
         = Some payload /\
       a = fn (sub payload) (username payload)).
Proof.
  assert (forall t, h_authorization req = Some ("Bearer " ++ t)%string ->
            auth_required fn e req =
              match jwt_decode t SECRET_KEY ["HS256"%string] (unix_time e) with
              | None => Denied (ErrorJson "invalid_token") 401
              | Some payload => Granted (fn (sub payload) (username payload))
              end) as Hbearer.
  { intros t Ht. unfold auth_required. rewrite Ht.
    replace (startswith ("Bearer " ++ t) "Bearer ") with true
      by (symmetry; apply startswith_spec; eauto).
    cbn [negb]. rewrite split1_bearer. reflexivity. }
  assert ((forall t, h_authorization req <> Some ("Bearer " ++ t)%string) ->
          auth_required fn e req = Denied (ErrorJson "missing_token") 401)
    as Hmissing.
  { intros Hno. unfold auth_required.
    destruct (startswith _ "Bearer ") eqn:E; [|reflexivity].
    apply startswith_spec in E. destruct E as [t Ht].
    destruct (h_authorization req) as [a|]; [|discriminate].
    subst a. now destruct (Hno t). }
  assert ((exists t, h_authorization req = Some ("Bearer " ++ t)%string) \/
          (forall t, h_authorization req <> Some ("Bearer " ++ t)%string))
    as Hcases.
  { destruct (h_authorization req) as [a|]; [|right; discriminate].
    destruct (startswith a "Bearer ") eqn:E.
    - apply startswith_spec in E. destruct E as [t ->]. left. eauto.
    - right. intros t Ht. injection Ht as Ha.
      assert (startswith a "Bearer " = true) as Hs
        by (apply startswith_spec; exists t; exact Ha).
      rewrite Hs in E. discriminate. }
  split; [exact Hmissing|]. split; [exact Hbearer|]. split.
  - destruct Hcases as [[t Ht]|Hno].
    + rewrite (Hbearer t Ht). now destruct (jwt_decode _ _ _ _).
    + now rewrite (Hmissing Hno).
  - intros a Ha. destruct Hcases as [[t Ht]|Hno].
    + rewrite (Hbearer t Ht) in Ha.
      destruct (jwt_decode _ _ _ _) as [payload|] eqn:Ed; [|discriminate].
      injection Ha as <-. eauto.
    + rewrite (Hmissing Hno) in Ha. discriminate.
Qed.

Lemma user_by_id_appended (db : database) (u : user) (su sw sr : Z) :
  ~ In (u_id u) (map u_id (users db)) ->
  user_by_id (mkDatabase (users db ++ [u]) (weights db) (runs db) su sw sr)
             (u_id u)
    = Some u.
Proof.
  intros Hfresh. unfold user_by_id. cbn [users].
  apply find_app_none; [|apply Z.eqb_refl].
  destruct (find _ (users db)) as [x|] eqn:E; [|reflexivity].
  apply find_some in E. destruct E as [Hin Hid]. apply Z.eqb_eq in Hid.
  exfalso. apply Hfresh. rewrite <- Hid. now apply in_map.
Qed.
End BearerGate.

(** X19: From registration to the first authenticated call, with the token
    that registration issued as bearer of GET /api/me.  What the JWT library
    makes of the token decides: when it returns the payload that was signed
    (PyJWT before 2.10), the answer is the profile of the new user, under
    the registered name and with the default goals; when it refuses the
    token (PyJWT from 2.10 on, for which a subject must be a string and not
    the integer id), the answer is invalid_token, 401, and the handler does
    not run. *)
Theorem registered_token_opens_profile {P : Platform} {T : PyStr}
    {D : Verifier}
    (db : database) (e e2 : env) (uf pf : option string) (req : request) :
  let name := str_lower (str_strip (str_or uf "")) in
  let uid := new_rowid (seq_users db) (map u_id (users db)) in
  let token := create_token e uid name in
  let db' := fst (register db e uf pf) in
  name <> ""%string -> str_or pf "" <> ""%string ->
  user_by_name db name = None ->
  h_authorization req = Some ("Bearer " ++ token)%string ->
  snd (register db e uf pf) = Ok (TokenJson token name, 200) /\
  (jwt_decode token SECRET_KEY [JWT_ALG] (unix_time e2) =
     Some (mkPayload uid name (unix_time e)
             (unix_time e + 60 * 60 * 24 * 14)) ->
   auth_required (fun user_id _ => me_get db' user_id) e2 req =
     Granted (Ok (mkProfile uid name 80%float 10%float "08:00" "18:00"))) /\
  (jwt_decode token SECRET_KEY [JWT_ALG] (unix_time e2) = None ->
   auth_required (fun user_id _ => me_get db' user_id) e2 req =
     Denied (ErrorJson "invalid_token") 401).
Proof.
  intros name uid token db' Hu Hp Hn Hauth.
  pose proof (register_fresh db e uf pf Hu Hp Hn) as Hreg.
  cbv zeta in Hreg. fold name uid token in Hreg.
  split; [now rewrite Hreg|].
  assert (forall A (fn : Z -> string -> A),
             auth_required fn e2 req =
             match jwt_decode token SECRET_KEY [JWT_ALG] (unix_time e2) with
             | None => Denied (ErrorJson "invalid_token") 401
             | Some payload => Granted (fn (sub payload) (username payload))
             end) as Hgate.
  { intros A fn. unfold auth_required. rewrite Hauth.
    replace (startswith ("Bearer " ++ token) "Bearer ") with true
      by (symmetry; apply startswith_spec; eauto).
    cbn [negb]. rewrite split1_bearer. reflexivity. }
  split; intros Hdec; rewrite Hgate, Hdec; [|reflexivity].
  cbn [sub]. f_equal.
  unfold db'. rewrite Hreg. cbn [fst]. unfold me_get.
  set (u := mkUser uid name (_hash_password (str_or pf "")) (sql_now e)
              80%float 10%float "08:00" "18:00").
  change uid with (u_id u) at 1.
  rewrite user_by_id_appended by (apply new_rowid_fresh).
  reflexivity.
Qed.

(** ** Response headers *)

Lemma same_key_refl (k : string) : same_key k k = true.
Proof. unfold same_key. apply String.eqb_refl. Qed.

Lemma same_key_sym (a b : string) : same_key a b = same_key b a.
Proof. unfold same_key. apply String.eqb_sym. Qed.

Lemma same_key_trans (a b c : string) :
  same_key a b = true -> same_key b c = true -> same_key a c = true.
Proof.
  unfold same_key. rewrite !String.eqb_eq. congruence.
Qed.

Lemma find_filter_keep {A : Type} (f g : A -> bool) (l : list A) :
  (forall x, f x = true -> g x = true) ->
  find f (filter g l) = find f l.
Proof.
  intros Hfg. induction l as [|x l IH]; [reflexivity|].
  cbn [filter find]. destruct (g x) eqn:Eg.
  - cbn [find]. now rewrite IH.
  - destruct (f x) eqn:Ef; [|exact IH].
    rewrite (Hfg x Ef) in Eg. discriminate.
Qed.

Lemma get_header_set_same (k v : string) (hs : list (string * string)) :
  get_header k (set_header k v hs) = Some v.
Proof.
  unfold get_header. induction hs as [|kv hs IH]; cbn [set_header].
  - cbn [find fst]. now rewrite same_key_refl.
  - destruct (same_key (fst kv) k) eqn:E.
    + cbn [find fst]. now rewrite same_key_refl.
    + cbn [find]. now rewrite E.
Qed.

Lemma get_header_set_other (k v k' : string) (hs : list (string * string)) :
  same_key k k' = false ->
  get_header k' (set_header k v hs) = get_header k' hs.
Proof.
  intros Hne. unfold get_header. f_equal.
  induction hs as [|kv hs IH]; cbn [set_header].
  - cbn [find fst]. now rewrite Hne.
  - destruct (same_key (fst kv) k) eqn:E.
    + cbn [find fst]. rewrite Hne.
      assert (same_key (fst kv) k' = false) as ->.
      { destruct (same_key (fst kv) k') eqn:E'; [|reflexivity].
        rewrite same_key_sym in E.
        now rewrite (same_key_trans _ _ _ E E') in Hne. }
      apply find_filter_keep. intros x Hx.
      apply negb_true_iff.
      destruct (same_key (fst x) k) eqn:Ex; [|reflexivity].
      rewrite same_key_sym in Ex.
      now rewrite (same_key_trans _ _ _ Ex Hx) in Hne.
    + cbn [find]. destruct (same_key (fst kv) k'); [reflexivity|exact IH].
Qed.

Lemma filter_negb_none {A : Type} (f : A -> bool) (l : list A) :
  filter f (filter (fun x => negb (f x)) l) = [].
Proof.
  induction l as [|x l IH]; [reflexivity|].
  cbn [filter]. destruct (f x) eqn:E; cbn [negb filter]; [exact IH|].
  now rewrite E.
Qed.

(** A key that was set is there once. *)
Lemma set_header_once (k v : string) (hs : list (string * string)) :
  filter (fun kv => same_key (fst kv) k) (set_header k v hs) = [(k, v)].
Proof.
  induction hs as [|kv hs IH]; cbn [set_header].
  - cbn [filter fst]. now rewrite same_key_refl.
  - destruct (same_key (fst kv) k) eqn:E.
    + cbn [filter fst]. rewrite same_key_refl. f_equal.
      apply (filter_negb_none (fun x => same_key (fst x) k)).
    + cbn [filter]. now rewrite E.
Qed.

Lemma filter_filter_keep {A : Type} (f g : A -> bool) (l : list A) :
  (forall x, f x = true -> g x = true) ->
  filter f (filter g l) = filter f l.
Proof.
  intros Hfg. induction l as [|x l IH]; [reflexivity|].
  cbn [filter]. destruct (g x) eqn:Eg.
  - cbn [filter]. now rewrite IH.
  - destruct (f x) eqn:Ef; [|exact IH].
    rewrite (Hfg x Ef) in Eg. discriminate.
Qed.

Lemma set_header_other_entries (k v k' : string)
    (hs : list (string * string)) :
  same_key k k' = false ->
  filter (fun kv => same_key (fst kv) k') (set_header k v hs) =
  filter (fun kv => same_key (fst kv) k') hs.
Proof.
  intros Hne. induction hs as [|kv hs IH]; cbn [set_header].
  - cbn [filter fst]. now rewrite Hne.
  - destruct (same_key (fst kv) k) eqn:E.
    + cbn [filter fst]. rewrite Hne.
      assert (same_key (fst kv) k' = false) as ->.
      { destruct (same_key (fst kv) k') eqn:E'; [|reflexivity].
        rewrite same_key_sym in E.
        now rewrite (same_key_trans _ _ _ E E') in Hne. }
      apply filter_filter_keep. intros x Hx.
      apply negb_true_iff.
      destruct (same_key (fst x) k) eqn:Ex; [|reflexivity].
      rewrite same_key_sym in Ex.
      now rewrite (same_key_trans _ _ _ Ex Hx) in Hne.
    + cbn [filter]. now rewrite IH.
Qed.

Ltac header_lookup :=
  cbn [with_headers headers fold_left fst snd];
  repeat (rewrite get_header_set_other by reflexivity);
  first [ apply get_header_set_same | reflexivity ].

Section CorsFacts.
Context {J : Type}.
Variable default_headers : list (string * string).

(** X20: The after-request hook on a path under /api: status and body pass
    through, the five CORS headers are set over whatever the view had put
    there (Allow-Origin is the Origin of the request, whatever it is, or *;
    Allow-Headers echoes the requested headers), and every other header
    stays.  Paths that do not start with /api are left alone. *)
Theorem cors_reflects_origin (req : request) (resp : response J) :
  (startswith (path req) "/api" = false ->
   _log_and_cors_response req resp = resp) /\
  (startswith (path req) "/api" = true ->
   let r := _log_and_cors_response req resp in
   status r = status resp /\ data r = data resp /\
   get_header "Access-Control-Allow-Origin" (headers r)
     = Some (str_or (h_origin req) "*") /\
   get_header "Access-Control-Allow-Methods" (headers r)
     = Some "GET,POST,PUT,DELETE,OPTIONS,PATCH"%string /\
   get_header "Access-Control-Allow-Headers" (headers r)
     = Some (str_or (h_acr_headers req)
                    "Authorization,Content-Type,Accept") /\
   get_header "Access-Control-Expose-Headers" (headers r)
     = Some "Content-Type,Authorization"%string /\
   get_header "Vary" (headers r) = Some "Origin"%string /\
   filter (fun kv => same_key (fst kv) "Access-Control-Allow-Origin")
          (headers r)
     = [("Access-Control-Allow-Origin"%string, str_or (h_origin req) "*")] /\
   (forall k,
       Forall (fun k0 => same_key k0 k = false)
         ["Access-Control-Allow-Origin"; "Access-Control-Allow-Methods";
          "Access-Control-Allow-Headers"; "Access-Control-Expose-Headers";
          "Vary"]%string ->
       get_header k (headers r) = get_header k (headers resp))).
Proof.
  unfold _log_and_cors_response. split; [now intros ->|].
  intros ->. cbv zeta.
  split; [reflexivity|]. split; [reflexivity|].
  split; [header_lookup|]. split; [header_lookup|].
  split; [header_lookup|]. split; [header_lookup|].
  split; [header_lookup|].
  split.
  { cbn [with_headers headers fold_left fst snd].
    rewrite !set_header_other_entries by reflexivity.
    apply set_header_once. }
  intros k Hk.
  repeat match goal with
         | H : Forall _ (_ :: _) |- _ => inversion H; clear H; subst
         end.
  cbn [with_headers headers fold_left fst snd].
  now rewrite !get_header_set_other by assumption.
Qed.

(** X21: A preflight never reaches the view: for OPTIONS, on any path and
    with or without credentials, the answer is 204 with an empty body and
    the CORS headers, whatever the view (and the bearer gate in front of
    it) would have said; for any other method the view is asked. *)
Theorem preflight_skips_the_view (req : request) :
  (method req <> "OPTIONS"%string ->
   forall view : request -> response J,
     serve default_headers view req =
     _log_and_cors_response req (view req)) /\
  (method req = "OPTIONS"%string ->
   (forall view1 view2 : request -> response J,
       serve default_headers view1 req = serve default_headers view2 req) /\
   forall view : request -> response J,
     let r := serve default_headers view req in
     status r = 204 /\ data r = Raw "" /\
     get_header "Access-Control-Allow-Origin" (headers r)
       = Some (str_or (h_origin req) "*") /\
     get_header "Access-Control-Allow-Methods" (headers r)
       = Some "GET,POST,PUT,DELETE,OPTIONS,PATCH"%string /\
     get_header "Access-Control-Allow-Headers" (headers r)
       = Some (str_or (h_acr_headers req)
                      "Authorization,Content-Type,Accept") /\
     get_header "Access-Control-Max-Age" (headers r)
       = Some "86400"%string /\
     get_header "Vary" (headers r) = Some "Origin"%string).
Proof.
  unfold serve, _log_and_cors_preflight. split.
  - intros Hm view. apply String.eqb_neq in Hm. now rewrite Hm.
  - intros ->. cbn [String.eqb Ascii.eqb Bool.eqb]. cbv zeta.
    split; [reflexivity|]. intros view.
    unfold _log_and_cors_response.
    destruct (startswith (path req) "/api"); cbv zeta;
      (split; [reflexivity|]); (split; [reflexivity|]);
      repeat split; header_lookup.
Qed.
End CorsFacts.

(** ** The text of a day *)

(** X1: [today_str] writes a date as ten characters, and the texts of two dates
    compare bytewise as the dates do: equal texts are equal dates, and the
    date [k] days before today has a text at or below today's, strictly
    below for [k] > 0.  This is what lets the queries compare the TEXT
    column [day] with [>=], [<=] and [=]. *)
Theorem today_str_orders_as_dates (e1 e2 : env) :
  valid_date (today e1) = true -> valid_date (today e2) = true ->
  String.length (today_str e1) = 10%nat /\
  String.compare (today_str e1) (today_str e2)
    = date_compare (today e1) (today e2) /\
  (today_str e1 = today_str e2 <-> today e1 = today e2) /\
  (forall k d, date_sub (today e1) k = Some d ->
     String.leb (isoformat d) (today_str e1) = true /\
     ((0 < k)%nat -> String.ltb (isoformat d) (today_str e1) = true)).
Proof.
  intros H1 H2. unfold today_str.
  split; [reflexivity|].
  split; [now apply isoformat_compare|].
  split; [split; [now apply isoformat_inj | now intros ->]|].
  intros k d Hk.
  pose proof (date_sub_valid _ _ _ H1 Hk) as Hd.
  pose proof (date_sub_code _ _ _ H1 Hk) as Hc.
  unfold String.leb, String.ltb.
  rewrite isoformat_compare, date_compare_code by assumption.
  split.
  - destruct (Z.compare_spec (date_code d) (date_code (today e1)));
      [reflexivity | reflexivity | lia].
  - intros Hpos.
    destruct (Z.compare_spec (date_code d) (date_code (today e1)));
      [lia | reflexivity | lia].
Qed.

(** ** Reading after a write *)

Section ReadBack.
Context {V : Type}.
Implicit Types (r : row V) (tbl : list (row V)).

End ReadBack.


(** ** Streaks under writes *)

Lemma streak_count_mono {V : Type} (tbl tbl' : list (row V)) (uid : Z)
    (d : date) (n n' : nat) :
  (forall s, has_entry tbl uid s = true -> has_entry tbl' uid s = true) ->
  streak_count tbl uid d n -> streak_count tbl' uid d n' -> (n <= n')%nat.
Proof.
  intros Hsub [Hall _] [_ [dn' [Hdn' Hno']]].
  destruct (Nat.le_gt_cases n n') as [Hle|Hgt]; [exact Hle|].
  destruct (Hall n' Hgt) as [x [Hx Hyes]].
  assert (x = dn') by congruence. subst x.
  apply Hsub in Hyes. congruence.
Qed.

(** X8: Logging an entry, for whatever day, never shortens a streak: after a
    POST /api/weights of the user the summary's weigh_streak is at least
    what it was and run_streak is what it was, and after a POST /api/runs
    the other way round. *)
Theorem write_never_shortens_streak (db : database) (e e' : env) (uid : Z)
    (day_field : option string) (p : summary_json) :
  summary db e uid = Ok p ->
  (forall w p',
      summary (fst (weights_add db e' uid day_field w)) e uid = Ok p' ->
      (weigh_streak p <= weigh_streak p')%nat /\
      run_streak p' = run_streak p) /\
  (forall dist dur p',
      summary (fst (runs_add db e' uid day_field dist dur)) e uid = Ok p' ->
      (run_streak p <= run_streak p')%nat /\
      weigh_streak p' = weigh_streak p).
Proof.
  intros Hp.
  destruct (summary_inv db e uid p Hp) as [_ [_ [_ [_ [Sw Sr]]]]].
  split.
  - intros w p' Hp'.
    destruct (PrimFloat.is_nan w) eqn:N.
    { rewrite weights_add_nan in Hp' by exact N. cbn [fst] in Hp'.
      assert (p' = p) as -> by congruence. split; [lia|reflexivity]. }
    rewrite weights_add_number in Hp' by exact N. cbn [fst] in Hp'.
    destruct (summary_inv _ e uid p' Hp') as [_ [_ [_ [_ [Sw' Sr']]]]].
    cbn [weights runs] in Sw', Sr'.
    split; [|congruence].
    apply streak_of_sound in Sw, Sw'.
    eapply streak_count_mono; [|exact Sw|exact Sw'].
    intros s Hs. rewrite has_entry_upsert, Hs. reflexivity.
  - intros dist dur p' Hp'.
    destruct (PrimFloat.is_nan dist || PrimFloat.is_nan dur) eqn:N.
    { apply orb_true_iff in N. rewrite runs_add_nan in Hp' by exact N.
      cbn [fst] in Hp'.
      assert (p' = p) as -> by congruence. split; [lia|reflexivity]. }
    apply orb_false_iff in N. destruct N as [N1 N2].
    rewrite runs_add_number in Hp' by assumption. cbn [fst] in Hp'.
    destruct (summary_inv _ e uid p' Hp') as [_ [_ [_ [_ [Sw' Sr']]]]].
    cbn [weights runs] in Sw', Sr'.
    split; [|congruence].
    apply streak_of_sound in Sr, Sr'.
    eapply streak_count_mono; [|exact Sr|exact Sr'].
    intros s Hs. rewrite has_entry_upsert, Hs. reflexivity.
Qed.

End Verification.

(** * The theorems on sample data

    The stand-ins for the external parts, and each theorem applied to a
    concrete request. *)

#[local] Existing Instance plain_sum.
#[local] Existing Instance ascii_text.
#[local] Existing Instance test_platform.
#[local] Existing Instance test_verifier.

Lemma summary_streaks_witness :
  exists p, @summary plain_sum sample_db sample_env 1 = Ok p /\
            weigh_streak p = 2%nat /\ run_streak p = 1%nat.
Proof.
  destruct (summary_streaks sample_db sample_env 1 eq_refl) as [_ [H _]].
  apply (H alice (mkDate 2026 10 29) 2%nat 1%nat); try reflexivity.
  - split.
    + intros [|[|k]] Hk; [eexists; split; reflexivity ..|lia].
    + eexists; split; reflexivity.
  - split.
    + intros [|k] Hk; [eexists; split; reflexivity|lia].
    + eexists; split; reflexivity.
Defined.

Lemma run_7d_km_window_witness :
  exists p, @summary plain_sum sample_db sample_env 1 = Ok p /\
            run_7d_km p = 8%float.
Proof.
  destruct (run_7d_km_window sample_db sample_env 1 alice (mkDate 2026 10 29)
              (fun r => if id r =? 1 then mkDate 2026 10 27
                        else if id r =? 2 then mkDate 2026 11 1 else nov4)
              eq_refl eq_refl eq_refl) as [Hex Hkm].
  - intros r [<-|[<-|[<-|[]]]]; split; reflexivity.
  - destruct (Hex 2%nat 1%nat) as [p Hp].
    + split.
      * intros [|[|k]] Hk; [eexists; split; reflexivity ..|lia].
      * eexists; split; reflexivity.
    + split.
      * intros [|k] Hk; [eexists; split; reflexivity|lia].
      * eexists; split; reflexivity.
    + exists p. split; [exact Hp|].
      destruct (Hkm p Hp) as [-> _]. reflexivity.
Defined.

Lemma future_run_in_sum_not_in_streak_witness :
  In nov10_run (run_7d_rows planned_db 1 "2026-10-29") /\
  (exists p p', @summary plain_sum planned_db sample_env 1 = Ok p /\
                @summary plain_sum sample_db sample_env 1 = Ok p' /\
                run_7d_km p = 12%float /\ run_7d_km p' = 8%float /\
                run_streak p = 1%nat /\ run_streak p' = 1%nat).
Proof.
  destruct (future_run_in_sum_not_in_streak planned_db sample_env 1
              (mkDate 2026 10 29) (mkDate 2026 11 10) nov10_run
              eq_refl eq_refl eq_refl eq_refl) as [Hin _];
    [cbn; tauto | reflexivity | reflexivity |].
  split; [exact Hin|].
  eexists. eexists. repeat split; reflexivity.
Defined.

Lemma lists_sorted_in_range_witness :
  map day (weights_list sample_db 1 (Some "2026-11-01"%string) None) =
    ["2026-11-04"; "2026-11-03"]%string /\
  StronglySorted day_desc
    (weights_list sample_db 1 (Some "2026-11-01"%string) None) /\
  map day (runs_list sample_db 1 None (Some "2026-11-01"%string)) =
    ["2026-11-01"; "2026-10-27"]%string.
Proof.
  destruct (lists_sorted_in_range sample_db 1 (Some "2026-11-01"%string) None)
    as [[Hs _] _].
  split; [reflexivity|]. split; [exact Hs | reflexivity].
Defined.



Lemma summary_latest_weight_witness :
  (exists p, @summary plain_sum sample_db sample_env 1 = Ok p /\
             latest_weight p = Some 82.5%float /\
             latest_weight_day p = Some "2026-11-04"%string /\
             delta_to_target p = Some 2.5%float) /\
  (exists p, @summary plain_sum (mkDb [alice] [] []) sample_env 1 = Ok p /\
             latest_weight p = None /\ latest_weight_day p = None /\
             delta_to_target p = None /\ run_7d_km p = 0%float).
Proof.
  split.
  - destruct (summary_latest_weight sample_db sample_env 1 alice
                (mkDate 2026 10 29) eq_refl eq_refl eq_refl) as [_ H].
    eexists. split; [reflexivity|].
    destruct (H _ eq_refl) as [_ [_ [Hw _]]].
    destruct (Hw _ eq_refl) as [_ [_ [_ [H1 [H2 H3]]]]].
    split; [exact H1|]. split; [exact H2 | exact H3].
  - destruct (summary_latest_weight (mkDb [alice] [] []) sample_env 1 alice
                (mkDate 2026 10 29) eq_refl eq_refl eq_refl) as [_ H].
    eexists. split; [reflexivity|].
    destruct (H _ eq_refl) as [Hnone [Hzero _]].
    destruct Hnone as [H1 [H2 H3]]; [intros r []|].
    split; [exact H1|]. split; [exact H2|]. split; [exact H3|].
    now apply Hzero.
Defined.

Lemma register_outcomes_witness :
  let first := @register test_platform ascii_text empty_db sample_env
                 (Some "Alice"%string) (Some "wonderland"%string) in
  snd first =
    Ok (TokenJson "change_this_to_a_long_random_secret.alice" "alice", 200) /\
  map u_username (users (fst first)) = ["alice"%string] /\
  @register test_platform ascii_text (fst first) sample_env
    (Some " ALICE "%string) (Some "rabbit"%string) =
    (fst first, Ok (ErrorJson "username_taken", 409)) /\
  @register test_platform ascii_text (fst first) sample_env
    (Some "bob"%string) None =
    (fst first, Ok (ErrorJson "username_password_required", 400)).
Proof.
  intros first.
  destruct (@register_outcomes test_platform ascii_text empty_db sample_env
              (Some "Alice"%string) (Some "wonderland"%string))
    as [_ [_ [_ [Hnew Htwice]]]].
  split; [unfold first; rewrite Hnew; [reflexivity|easy|easy|reflexivity]|].
  split; [reflexivity|].
  split.
  - apply Htwice; easy.
  - apply (@register_outcomes test_platform ascii_text (fst first) sample_env
             (Some "bob"%string) None). now right.
Defined.

Lemma login_failures_identical_witness :
  @login test_platform ascii_text sample_db sample_env
    (Some "mallory"%string) (Some "wonderland"%string) =
    (ErrorJson "invalid_credentials", 401) /\
  @login test_platform ascii_text sample_db sample_env
    (Some "Alice"%string) (Some "looking-glass"%string) =
    (ErrorJson "invalid_credentials", 401) /\
  @login test_platform ascii_text sample_db sample_env
    (Some "Alice"%string) (Some "wonderland"%string) =
    (TokenJson "change_this_to_a_long_random_secret.alice" "alice", 200).
Proof.
  split; [|split].
  - apply (@login_failures_identical test_platform ascii_text
                sample_db sample_env
             (Some "mallory"%string) (Some "wonderland"%string));
      [easy | easy | reflexivity].
  - apply (proj1 (proj2
             (@login_failures_identical test_platform ascii_text
                sample_db sample_env
                (Some "Alice"%string) (Some "looking-glass"%string)
                ltac:(easy) ltac:(easy))) alice); reflexivity.
  - apply (proj2 (proj2
             (@login_failures_identical test_platform ascii_text
                sample_db sample_env
                (Some "Alice"%string) (Some "wonderland"%string)
                ltac:(easy) ltac:(easy))) alice); reflexivity.
Defined.

Lemma hash_password_roundtrip_witness :
  @_hash_password test_platform "wonderland" =
    "7374617469635f73616c745f6368616e67655f6d65776f6e6465726c616e64"%string /\
  @_verify_password test_platform "wonderland"
    (@_hash_password test_platform "wonderland") = true.
Proof.
  split; [reflexivity|].
  apply (proj1 (proj2 (@hash_password_roundtrip test_platform ascii_text))).
Defined.

Lemma writes_isolated_between_users_witness :
  let db' := fst (weights_add sample_db sample_env 2 None 70%float) in
  weights_list db' 1 None None = weights_list sample_db 1 None None /\
  @summary plain_sum db' sample_env 1
    = @summary plain_sum sample_db sample_env 1 /\
  map weight_kg (weights_list db' 2 None None) = [70%float].
Proof.
  destruct (writes_isolated_between_users sample_db sample_env 2 1 None
              ltac:(lia)) as [Hw _].
  destruct (Hw 70%float) as [Hl [Hs _]].
  split; [apply Hl|]. split; [apply Hs | reflexivity].
Defined.

Lemma repeated_write_keeps_rows_witness :
  let once := fst (weights_add sample_db sample_env 1 None 82%float) in
  let twice :=
    fst (weights_add once (mkEnv nov4 1793803600 "2026-11-04 10:30:00") 1
           (Some "2026-11-04"%string) 82%float) in
  weights twice = weights once /\
  seq_weights sample_db = 3 /\ seq_weights once = 4 /\
  seq_weights twice = 4 + 1.
Proof.
  intros once twice.
  destruct (proj1 (repeated_write_keeps_rows sample_db sample_env
                     (mkEnv nov4 1793803600 "2026-11-04 10:30:00") 1
                     None (Some "2026-11-04"%string) eq_refl)
              82%float eq_refl) as [_ [Hw [_ [_ [_ Hseq]]]]].
  split; [exact Hw|]. split; [reflexivity|]. split; [reflexivity|].
  exact Hseq.
Defined.



Lemma streak_bounded_by_entries_witness :
  exists p, @summary plain_sum sample_db sample_env 1 = Ok p /\
            (weigh_streak p <= 3)%nat /\ (run_streak p <= 3)%nat.
Proof.
  eexists. split; [reflexivity|].
  apply (streak_bounded_by_entries sample_db sample_env 1 _ eq_refl eq_refl).
Defined.

Lemma summary_failures_witness :
  @summary plain_sum sample_db sample_env 7 = Raise TypeError /\
  @summary plain_sum sample_db (mkEnv (mkDate 1 1 5) 0 "") 1
    = Raise OverflowError /\
  exists u, user_by_id sample_db 1 = Some u.
Proof.
  split; [|split; [reflexivity|]].
  - apply (proj1 (summary_failures sample_db sample_env 7 eq_refl)).
    reflexivity.
  - apply (proj1 (proj2 (summary_failures sample_db
                           (mkEnv (mkDate 1 1 5) 0 "") 1 eq_refl))).
    reflexivity.
Defined.

Lemma login_token_needs_matching_hash_witness :
  exists u, In u (users sample_db) /\ u_username u = "alice"%string /\
            u_password_hash u = @_hash_password test_platform "wonderland".
Proof.
  destruct (@login_token_needs_matching_hash test_platform ascii_text
              sample_db
              sample_env (Some " Alice"%string) (Some "wonderland"%string)
              _ _ _ eq_refl) as [_ [_ [_ [_ [u [Hin [Hn [Hh _]]]]]]]].
  exists u. auto.
Defined.

Lemma me_without_user_row_witness :
  me_update sample_db 9
    (mkInput (Some (mkNumber 70%float eq_refl)) None None None) =
    (sample_db, Raise AttributeError).
Proof.
  apply (proj2 (me_without_user_row sample_db 9
                  (mkInput (Some (mkNumber 70%float eq_refl)) None None None)
                  eq_refl)).
Defined.

Lemma login_after_register_any_spelling_witness :
  let db' := fst (@register test_platform ascii_text sample_db sample_env
                    (Some "  Bob "%string) (Some "builder"%string)) in
  @login test_platform ascii_text db' sample_env (Some "BOB"%string)
    (Some "builder"%string) =
    (TokenJson "change_this_to_a_long_random_secret.bob" "bob", 200) /\
  @login test_platform ascii_text db' sample_env (Some "bob"%string)
    (Some "builder"%string) =
    (TokenJson "change_this_to_a_long_random_secret.bob" "bob", 200).
Proof.
  intros db'.
  destruct (@login_after_register_any_spelling test_platform ascii_text
              sample_db sample_env
              (Some "  Bob "%string) (Some "builder"%string)
              ltac:(easy) ltac:(easy) eq_refl) as [_ [Hany Hstored]].
  split; [now apply Hany | now apply Hstored].
Defined.

Lemma list_query_edges_witness :
  weights_list sample_db 1 (Some "2026-11-04"%string)
    (Some "2026-11-01"%string) = [] /\
  map weight_kg
    (weights_list sample_db 1 (Some "2026-11-03"%string)
       (Some "2026-11-03"%string)) = [83%float] /\
  (List.length
     (weights_list sample_db 1 (Some "2026-11-03"%string)
        (Some "2026-11-03"%string)) <= 1)%nat.
Proof.
  destruct (list_query_edges sample_db 1) as [Hinv [_ Hone]].
  split; [|split; [reflexivity|]].
  - apply (Hinv (Some "2026-11-04"%string) (Some "2026-11-01"%string)
             "2026-11-04"%string "2026-11-01"%string); reflexivity.
  - apply (Hone sample_db_ok "2026-11-03"%string). easy.
Defined.

Lemma registered_token_opens_profile_witness :
  let db' := fst (@register test_platform ascii_text sample_db sample_env
                    (Some "  Bob "%string) (Some "builder"%string)) in
  @auth_required test_platform test_verifier _
    (fun user_id _ => me_get db' user_id) sample_env
    (mkReq "GET" "/api/me" None None
       (Some "Bearer change_this_to_a_long_random_secret.bob"%string)) =
  Granted (Ok (mkProfile 2 "bob" 80%float 10%float "08:00" "18:00")).
Proof.
  intros db'.
  destruct (@registered_token_opens_profile test_platform ascii_text
              test_verifier sample_db sample_env sample_env
              (Some "  Bob "%string) (Some "builder"%string)
              (mkReq "GET" "/api/me" None None
                 (Some "Bearer change_this_to_a_long_random_secret.bob"
                    %string))
              ltac:(easy) ltac:(easy) eq_refl eq_refl) as [_ [Hopen _]].
  now apply Hopen.
Defined.

Lemma bearer_gate_witness :
  @auth_required test_platform test_verifier _
    (fun user_id _ => me_get sample_db user_id) sample_env
    (mkReq "GET" "/api/me" None None (Some "bearer abc"%string)) =
    Denied (ErrorJson "missing_token") 401 /\
  @auth_required test_platform test_verifier _
    (fun user_id _ => me_get sample_db user_id) sample_env
    (mkReq "GET" "/api/me" None None (Some "Bearer  abc"%string)) =
    Denied (ErrorJson "invalid_token") 401.
Proof.
  split.
  - apply (@bearer_gate test_platform test_verifier). intros t. discriminate.
  - rewrite (proj1 (proj2 (@bearer_gate test_platform test_verifier _
                             (fun user_id _ => me_get sample_db user_id)
                             sample_env
                             (mkReq "GET" "/api/me" None None
                                (Some "Bearer  abc"%string))))
               " abc"%string eq_refl).
    reflexivity.
Defined.

Lemma cors_reflects_origin_witness :
  get_header "Access-Control-Allow-Origin"
    (headers (_log_and_cors_response
                (mkReq "GET" "/api/summary"
                   (Some "https://evil.example"%string) None None)
                (mkResp 200
                   [("Content-Type", "application/json");
                    ("Access-Control-Allow-Origin", "https://app.example")]
                   (Json tt))%string)) =
  Some "https://evil.example"%string.
Proof.
  destruct (proj2 (cors_reflects_origin
              (mkReq "GET" "/api/summary"
                 (Some "https://evil.example"%string) None None)
              (mkResp 200
                 [("Content-Type", "application/json");
                  ("Access-Control-Allow-Origin", "https://app.example")]
                 (Json tt))%string) eq_refl) as [_ [_ [H _]]].
  exact H.
Defined.

Lemma preflight_skips_the_view_witness :
  status (serve [("Content-Type", "text/html; charset=utf-8")]%string
            (fun _ => mkResp 401 [] (Json (ErrorJson "missing_token")))
            (mkReq "OPTIONS" "/api/summary" None None None)) = 204.
Proof.
  apply (proj2 (proj2 (preflight_skips_the_view
                  [("Content-Type", "text/html; charset=utf-8")]%string
                  (mkReq "OPTIONS" "/api/summary" None None None))
                eq_refl)).
Defined.

Lemma today_str_orders_as_dates_witness :
  String.compare (today_str sample_env)
                 (today_str (mkEnv (mkDate 2026 12 1) 0 "")) = Lt /\
  String.ltb "2026-10-29" (today_str sample_env) = true.
Proof.
  destruct (today_str_orders_as_dates sample_env
              (mkEnv (mkDate 2026 12 1) 0 "") eq_refl eq_refl)
    as [_ [Hc [_ Hk]]].
  split; [rewrite Hc; reflexivity|].
  apply (proj2 (Hk 6%nat (mkDate 2026 10 29) eq_refl)). lia.
Defined.


Lemma write_never_shortens_streak_witness :
  exists p', @summary plain_sum (fst (weights_add sample_db sample_env 1
                             (Some "2026-11-02"%string) 83.5%float))
                     sample_env 1 = Ok p' /\
             (2 <= weigh_streak p')%nat /\ run_streak p' = 1%nat.
Proof.
  eexists. split; [reflexivity|].
  apply (proj1 (write_never_shortens_streak sample_db sample_env sample_env
                  1 (Some "2026-11-02"%string) _ eq_refl)
           83.5%float _ eq_refl).
Defined.

(** ** Boundary behaviour *)

(** With an entry on every day back to [date.min] the scan has no day to
    stop at: the step below 0001-01-01 raises OverflowError. *)
Example streak_overflows_at_date_min :
  streak_of [mkRow 1 1 "0001-01-01" 80%float "";
             mkRow 2 1 "0001-01-02" 80%float ""]
            1 (mkDate 1 1 2) = Raise OverflowError.
Proof. reflexivity. Qed.

(** A username of blanks only is empty once stripped. *)
Example login_blank_username :
  @login test_platform ascii_text sample_db sample_env
    (Some "   "%string) (Some "wonderland"%string) =
    (ErrorJson "username_password_required", 400).
Proof. reflexivity. Qed.

(** An empty [end] parameter is not a bound. *)
Example weights_list_empty_end :
  map day (weights_list sample_db 1 None (Some ""%string)) =
    ["2026-11-04"; "2026-11-03"; "2026-10-30"]%string.
Proof. reflexivity. Qed.

(** The day is TEXT: a day that is not an ISO date is stored as written and
    ordered bytewise. *)
Example weights_add_free_text_day :
  map day (weights_list
             (fst (weights_add sample_db sample_env 1
                     (Some "tomorrow"%string) 82%float)) 1 None None) =
    ["tomorrow"; "2026-11-04"; "2026-11-03"; "2026-10-30"]%string.
Proof. reflexivity. Qed.

(** Runs of another user are not counted. *)
Example summary_other_user :
  option_map run_7d_km
    (match @summary plain_sum (mkDb (users sample_db ++
                            [mkUser 2 "bob" "" "" 80%float 10%float
                                    "08:00" "18:00"])
                         (weights sample_db) (runs sample_db))
                   sample_env 2 with
     | Ok p => Some p
     | Raise _ => None
     end) = Some 0%float.
Proof. reflexivity. Qed.
